(** * capriblue: the landing page bootstrapper [assets/app.js]

    A shallow embedding of the bootstrapper: language resolution, the
    i18n loader, the schema validator and the renderer, over a model of
    the values, strings and DOM nodes the script works with.

    Conventions of the model:
    - a [string] is the sequence of code units of a script string; the
      model covers code units below 256;
    - a number is an integer in the range where its text is the plain
      decimal numeral;
    - a [value] is what [response.json()] or the page configuration can
      hold; property access reads the data of the value itself (fields
      of an object, elements and [length] of an array or a string) and
      throws on [null] and [undefined] as the runtime does.  Members
      inherited from the built-in prototypes are not data of a document
      and are not modelled; none of the keys the script reads names one. *)

From Stdlib Require Import ZArith List String Ascii Bool Lia DecimalString.
Import ListNotations.

Local Open Scope list_scope.
Local Open Scope string_scope.
Set Warnings "-register-all".

(** ** Errors and results *)

(** The errors a run can end with.  The first five are the [Error]s the
    script throws itself, named after the kinds of the specification
    (the text each one is built with is [message], below).  [TypeError]
    is raised by the runtime, [NetworkError] is a rejected [fetch]. *)
Inductive error : Type :=
| ResourceUnavailable (url : string) (status : Z)
| MalformedResource (language : string)
| MissingKey (path : string)
| InvalidShape
| MissingProjectField (index : nat) (key : string)
| TypeError
| NetworkError.

Inductive result (A : Type) : Type :=
| Ok (a : A)
| Throw (e : error).

Arguments Ok {A} a.
Arguments Throw {A} e.

Definition bind {A B : Type} (m : result A) (k : A -> result B) : result B :=
  match m with
  | Ok a => k a
  | Throw e => Throw e
  end.

Notation "x <- m ;; k" := (bind m (fun x => k))
  (at level 61, m at next level, right associativity).
Notation "m ;;; k" := (bind m (fun _ => k))
  (at level 61, right associativity).

(** ** The runtime: values, text conversion, property access *)

Module JS.

Inductive value : Type :=
| VUndefined
| VNull
| VBool (b : bool)
| VNum (n : Z)
| VStr (s : string)
| VArr (elems : list value)
| VObj (props : list (string * value)).

(** [v == null] *)
Definition nullish (v : value) : bool :=
  match v with
  | VUndefined | VNull => true
  | _ => false
  end.

(** ToBoolean *)
Definition truthy (v : value) : bool :=
  match v with
  | VUndefined | VNull => false
  | VBool b => b
  | VNum n => negb (n =? 0)%Z
  | VStr s => negb (s =? "")
  | VArr _ | VObj _ => true
  end.

(** Number to text *)
Definition number_to_string (n : Z) : string :=
  NilZero.string_of_int (Z.to_int n).

(** White space and line terminators, as [trim] sees them. *)
Definition is_space (c : ascii) : bool :=
  let n := nat_of_ascii c in
  ((9 <=? n)%nat && (n <=? 13)%nat) || (n =? 32)%nat || (n =? 160)%nat.

Fixpoint trimStart (s : string) : string :=
  match s with
  | "" => ""
  | String c r => if is_space c then trimStart r else s
  end.

Fixpoint trimEnd (s : string) : string :=
  match s with
  | "" => ""
  | String c r =>
      match trimEnd r with
      | "" => if is_space c then "" else String c ""
      | r' => String c r'
      end
  end.

Definition trim (s : string) : string := trimEnd (trimStart s).

(** [s.split(sep)] for a one-character separator *)
Fixpoint split (sep : ascii) (s : string) : list string :=
  match s with
  | "" => [""]
  | String c r =>
      if Ascii.eqb c sep then "" :: split sep r
      else match split sep r with
           | [] => [String c ""]
           | h :: t => String c h :: t
           end
  end.

(** [prefix p s]: does [s] start with [p] *)
Fixpoint drop_prefix (p s : string) : option string :=
  match p, s with
  | "", _ => Some s
  | String a p', String b s' => if Ascii.eqb a b then drop_prefix p' s' else None
  | String _ _, "" => None
  end.

(** [s.replace(pat, rep)] for a string pattern and a replacement text
    without [$]: the first occurrence only. *)
Fixpoint replace (pat rep s : string) : string :=
  match drop_prefix pat s with
  | Some rest => rep ++ rest
  | None =>
      match s with
      | "" => ""
      | String c r => String c (replace pat rep r)
      end
  end.

Fixpoint lookup (key : string) (props : list (string * value)) : value :=
  match props with
  | [] => VUndefined
  | (k, v) :: rest => if k =? key then v else lookup key rest
  end.

Fixpoint has_key (key : string) (props : list (string * value)) : bool :=
  match props with
  | [] => false
  | (k, _) :: rest => (k =? key) || has_key key rest
  end.

(** A key that is the canonical numeral of an index. *)
Definition index_of_key (key : string) : option nat :=
  match NilZero.uint_of_string key with
  | Some d =>
      let i := Nat.of_uint d in
      if number_to_string (Z.of_nat i) =? key then Some i else None
  | None => None
  end.

Fixpoint char_at (i : nat) (s : string) : value :=
  match s, i with
  | "", _ => VUndefined
  | String c _, O => VStr (String c "")
  | String _ r, S j => char_at j r
  end.

(** [v[key]] *)
Definition get_prop (v : value) (key : string) : result value :=
  match v with
  | VUndefined | VNull => Throw TypeError
  | VBool _ | VNum _ => Ok VUndefined
  | VStr s =>
      if key =? "length" then Ok (VNum (Z.of_nat (String.length s)))
      else match index_of_key key with
           | Some i => Ok (char_at i s)
           | None => Ok VUndefined
           end
  | VArr elems =>
      if key =? "length" then Ok (VNum (Z.of_nat (List.length elems)))
      else match index_of_key key with
           | Some i => Ok (nth i elems VUndefined)
           | None => Ok VUndefined
           end
  | VObj props => Ok (lookup key props)
  end.

(** ToString.  An array joins the texts of its elements with commas,
    [null] and [undefined] elements giving the empty text; an object
    gives ["[object Object]"] unless a field named [toString] hides
    the built-in method, in which case the conversion throws. *)
Fixpoint to_string (v : value) : result string :=
  match v with
  | VUndefined => Ok "undefined"
  | VNull => Ok "null"
  | VBool true => Ok "true"
  | VBool false => Ok "false"
  | VNum n => Ok (number_to_string n)
  | VStr s => Ok s
  | VArr elems =>
      (fix join (l : list value) : result string :=
         match l with
         | [] => Ok ""
         | x :: rest =>
             s <- (if nullish x then Ok "" else to_string x) ;;
             match rest with
             | [] => Ok s
             | _ => r <- join rest ;; Ok (s ++ "," ++ r)
             end
         end) elems
  | VObj props =>
      if has_key "toString" props then Throw TypeError
      else Ok "[object Object]"
  end.

(** [arr.reduce(f, init)] with a callback that may throw *)
Fixpoint reduce {A B : Type} (f : A -> B -> result A) (l : list B) (init : A)
  : result A :=
  match l with
  | [] => Ok init
  | x :: rest => acc <- f init x ;; reduce f rest acc
  end.

End JS.

Import JS.

(** [encodeURIComponent]: the unreserved characters stay, every other
    code unit becomes the percent-encoded bytes of its UTF-8 form. *)
Definition unreserved (c : ascii) : bool :=
  let n := nat_of_ascii c in
  ((48 <=? n)%nat && (n <=? 57)%nat) || ((65 <=? n)%nat && (n <=? 90)%nat)
  || ((97 <=? n)%nat && (n <=? 122)%nat)
  || existsb (Ascii.eqb c) (list_ascii_of_string "-_.!~*'()").

Definition hex_digit (n : nat) : ascii :=
  nth n (list_ascii_of_string "0123456789ABCDEF") "0"%char.

Definition percent (byte : nat) : string :=
  String "%" (String (hex_digit (byte / 16)) (String (hex_digit (byte mod 16)) "")).

Fixpoint encodeURIComponent (s : string) : string :=
  match s with
  | "" => ""
  | String c r =>
      let n := nat_of_ascii c in
      (if unreserved c then String c ""
       else if (n <? 128)%nat then percent n
       else percent (192 + n / 64) ++ percent (128 + n mod 64))
      ++ encodeURIComponent r
  end.

(** ** The page *)

Module Dom.

Inductive node : Type :=
| Text (data : string)
| Element (tag : string) (attributes : list (string * string))
          (children : list node).

Fixpoint put (name val : string) (l : list (string * string))
  : list (string * string) :=
  match l with
  | [] => [(name, val)]
  | (k, v) :: rest =>
      if k =? name then (k, val) :: rest else (k, v) :: put name val rest
  end.

(** [node.setAttribute(name, val)]; [node.className = val] sets [class] *)
Definition setAttribute (name val : string) (n : node) : node :=
  match n with
  | Element tag attributes children => Element tag (put name val attributes) children
  | Text _ => n
  end.

(** [node.textContent = val] *)
Definition set_textContent (val : string) (n : node) : node :=
  match n with
  | Element tag attributes _ =>
      Element tag attributes (if val =? "" then [] else [Text val])
  | Text _ => Text val
  end.

(** [node.append(...nodes)] *)
Definition append (nodes : list node) (n : node) : node :=
  match n with
  | Element tag attributes children => Element tag attributes (children ++ nodes)%list
  | Text _ => n
  end.

Definition attribute (name : string) (n : node) : option string :=
  match n with
  | Element _ attributes _ =>
      option_map snd (find (fun kv => fst kv =? name) attributes)
  | Text _ => None
  end.

Fixpoint textContent (n : node) : string :=
  match n with
  | Text data => data
  | Element _ _ children =>
      (fix all (l : list node) : string :=
         match l with
         | [] => ""
         | c :: rest => textContent c ++ all rest
         end) children
  end.

Definition child_nodes (n : node) : list node :=
  match n with
  | Element _ _ children => children
  | Text _ => []
  end.

(** The element with id [app]: its children and its [aria-busy]. *)
Record mount : Type := { contents : list node; aria_busy : option string }.

(** What a run can change or write to. *)
Record page : Type :=
  { title : string;
    appRoot : option mount;
    console : list error }.

End Dom.

Import Dom.

(** What a run reads from its surroundings. *)
Inductive search_params : Type :=
| BadQuery                                    (* [new URLSearchParams] threw *)
| Params (entries : list (string * string)).  (* the decoded pairs, in order *)

Record response : Type :=
  { ok : bool;
    status : Z;
    body : option value }.  (* what [response.json()] gives; [None] when it rejects *)

Inductive fetch_outcome : Type :=
| Rejected
| Responded (r : response).

Record request : Type := { req_url : string; req_cache : string }.

Record world : Type :=
  { search : search_params;            (* [window.location.search], parsed *)
    config : value;                    (* [window.__APP_CONFIG__] *)
    fetch : request -> fetch_outcome;
    year : Z }.                        (* [new Date().getFullYear()] *)

(** Statements that change the page and may throw. *)
Definition action (A : Type) : Type := page -> page * result A.

Definition lift {A : Type} (r : result A) : action A := fun pg => (pg, r).

Definition then_ {A B : Type} (m : action A) (k : A -> action B) : action B :=
  fun pg =>
    match m pg with
    | (pg', Ok a) => k a pg'
    | (pg', Throw e) => (pg', Throw e)
    end.

Notation "x <~ m ;; k" := (then_ m (fun x => k))
  (at level 61, m at next level, right associativity).

(** ** The script *)

(** [params.get(name)]: the first value under that name *)
Fixpoint params_get (name : string) (entries : list (string * string))
  : option string :=
  match entries with
  | [] => None
  | (k, v) :: rest => if k =? name then Some v else params_get name rest
  end.

(** [window.__APP_CONFIG__ && window.__APP_CONFIG__[key]] *)
Definition config_field (config : value) (key : string) : result value :=
  if truthy config then get_prop config key else Ok config.

Definition getLanguage (search : search_params) (config : value) : result value :=
  let candidate :=
    match search with
    | Params entries =>
        trim (match params_get "lang" entries with
              | Some v => v
              | None => ""
              end)
    | BadQuery => ""
    end in
  if negb (candidate =? "") then Ok (VStr candidate)
  else
    d <- config_field config "defaultLanguage" ;;
    Ok (if truthy d then d else VStr "en").

(** [(window.__APP_CONFIG__ && window.__APP_CONFIG__.i18nPath) || 'i18n'] *)
Definition basePath (config : value) : result value :=
  p <- config_field config "i18nPath" ;;
  Ok (if truthy p then p else VStr "i18n").

(** The location of the resource of a language under a base path. *)
Definition location (base lang : string) : string :=
  base ++ "/" ++ encodeURIComponent lang ++ ".json".

Definition loadI18n (config : value) (fetch : request -> fetch_outcome)
                    (language : value) : result value :=
  basePath <- basePath config ;;
  base <- to_string basePath ;;
  lang <- to_string language ;;
  let url := location base lang in
  match fetch {| req_url := url; req_cache := "no-store" |} with
  | Rejected => Throw NetworkError
  | Responded r =>
      if negb (ok r) then Throw (ResourceUnavailable url (status r))
      else match body r with
           | Some parsed => Ok parsed
           | None => Throw (MalformedResource lang)
           end
  end.

(** The callback of [getPath]: [(acc, key) => (acc == null ? acc : acc[key])] *)
Definition descend (acc : value) (key : string) : result value :=
  if nullish acc then Ok acc else get_prop acc key.

Definition getPath (object : value) (dotPath : string) : result value :=
  reduce descend (split "." dotPath) object.

Definition requiredPaths : list string :=
  [ "site.title"; "site.tagline"; "sections.projects"; "labels.visit";
    "footer.copyright"; "projects" ].

(** [for (const x of l) body(x)] *)
Fixpoint for_of {A : Type} (body : A -> result unit) (l : list A) : result unit :=
  match l with
  | [] => Ok tt
  | x :: rest => body x ;;; for_of body rest
  end.

(** [for (const [index, x] of l.entries()) body(index, x)], from [index] on *)
Fixpoint for_entries {A : Type} (body : nat -> A -> result unit)
                     (index : nat) (l : list A) : result unit :=
  match l with
  | [] => Ok tt
  | x :: rest => body index x ;;; for_entries body (S index) rest
  end.

Definition check_path (i18n : value) (path : string) : result unit :=
  v <- getPath i18n path ;;
  if nullish v then Throw (MissingKey path) else Ok tt.

Definition check_field (index : nat) (project : value) (key : string)
  : result unit :=
  v <- get_prop project key ;;
  if nullish v then Throw (MissingProjectField index key)
  else
    s <- to_string v ;;
    if trim s =? "" then Throw (MissingProjectField index key) else Ok tt.

Definition check_project (index : nat) (project : value) : result unit :=
  for_of (check_field index project) ["codename"; "description"].

Definition validateI18n (i18n : value) : result unit :=
  for_of (check_path i18n) requiredPaths ;;;
  projects <- get_prop i18n "projects" ;;
  match projects with
  | VArr entries => for_entries check_project 0 entries
  | _ => Throw InvalidShape
  end.

(** The text each [Error] of the script is built with; the errors of the
    runtime carry a text of its own. *)
Definition message (e : error) : option string :=
  match e with
  | ResourceUnavailable url status =>
      Some ("Failed to load i18n resource: " ++ url
            ++ " (" ++ number_to_string status ++ ")")
  | MalformedResource language =>
      Some ("Malformed i18n JSON for language: " ++ language)
  | MissingKey path => Some ("Missing i18n key: " ++ path)
  | InvalidShape => Some "i18n.projects must be an array"
  | MissingProjectField index key =>
      Some ("Project at index " ++ number_to_string (Z.of_nat index)
            ++ " is missing key: " ++ key)
  | TypeError | NetworkError => None
  end.

(** The [options] argument of [el]; an absent [text] is [VUndefined]. *)
Record options : Type :=
  { className : option string;
    text : value;
    attrs : list (string * value) }.

Definition classed (c : string) : options :=
  {| className := Some c; text := VUndefined; attrs := [] |}.

Definition labelled (c : string) (t : value) : options :=
  {| className := Some c; text := t; attrs := [] |}.

Definition el (tag : string) (o : options) : result node :=
  let node := Element tag [] [] in
  let node :=
    match className o with
    | Some c => if c =? "" then node else setAttribute "class" c node
    | None => node
    end in
  node <- (if nullish (text o) then Ok node
           else s <- to_string (text o) ;; Ok (set_textContent s node)) ;;
  reduce (fun node entry =>
            if nullish (snd entry) then Ok node
            else s <- to_string (snd entry) ;; Ok (setAttribute (fst entry) s node))
         (attrs o) node.

(** The card of one project: the body of the loop of [render] up to
    [grid.append(card)]. *)
Definition make_card (i18n : value) (project : value) : result node :=
  card <- el "article" (classed "project-card") ;;
  codename <- get_prop project "codename" ;;
  name <- el "h3" (labelled "project-name" codename) ;;
  description <- get_prop project "description" ;;
  desc <- el "p" (labelled "project-desc" description) ;;
  let card := append [name; desc] card in
  url <- get_prop project "url" ;;
  if truthy url then
    actions <- el "div" (classed "project-actions") ;;
    visitLabel <- getPath i18n "labels.visit" ;;
    visit <- to_string visitLabel ;;
    who <- to_string codename ;;
    link <- el "a" {| className := Some "button-link";
                      text := visitLabel;
                      attrs := [ ("href", url);
                                 ("target", VStr "_blank");
                                 ("rel", VStr "noopener noreferrer");
                                 ("aria-label", VStr (visit ++ ": " ++ who)) ] |} ;;
    Ok (append [append [link] actions] card)
  else Ok card.

(** The body of the loop over the projects. *)
Definition add_card (i18n : value) (grid : node) (project : value) : result node :=
  card <- make_card i18n project ;;
  Ok (append [card] grid).

(** What [for (const project of x)] iterates over. *)
Definition iterate (x : value) : result (list value) :=
  match x with
  | VArr elems => Ok elems
  | VStr s => Ok (map (fun c => VStr (String c "")) (list_ascii_of_string s))
  | _ => Throw TypeError
  end.

(** Lines 104 to 152 of [render]: the detached tree. *)
Definition build (year : Z) (i18n : value) : result node :=
  container <- el "div" (classed "container") ;;
  header <- el "header" (classed "site-header") ;;
  t <- getPath i18n "site.title" ;;
  title <- el "h1" (labelled "title" t) ;;
  g <- getPath i18n "site.tagline" ;;
  tagline <- el "p" (labelled "tagline" g) ;;
  let header := append [title; tagline] header in
  projectsSection <- el "section" (classed "projects") ;;
  h <- getPath i18n "sections.projects" ;;
  sectionTitle <- el "h2" (labelled "section-title" h) ;;
  grid <- el "div" (classed "projects-grid") ;;
  projects <- get_prop i18n "projects" ;;
  projects <- iterate projects ;;
  grid <- reduce (add_card i18n) projects grid ;;
  let projectsSection := append [sectionTitle; grid] projectsSection in
  footer <- el "footer" (classed "site-footer") ;;
  copyrightTmpl <- getPath i18n "footer.copyright" ;;
  copyright <- match copyrightTmpl with
               | VStr tmpl => Ok (replace "{year}" (number_to_string year) tmpl)
               | _ => Throw TypeError
               end ;;
  line <- el "div" {| className := None; text := VStr copyright; attrs := [] |} ;;
  let footer := append [line] footer in
  Ok (append [header; projectsSection; footer] container).

Definition set_title (v : value) : action unit :=
  fun pg =>
    match to_string v with
    | Ok s => ({| title := s; appRoot := appRoot pg; console := console pg |}, Ok tt)
    | Throw e => (pg, Throw e)
    end.

(** [appRoot.replaceChildren(n)] *)
Definition replaceChildren (n : node) : action unit :=
  fun pg =>
    match appRoot pg with
    | Some root =>
        ({| title := title pg;
            appRoot := Some {| contents := [n]; aria_busy := aria_busy root |};
            console := console pg |}, Ok tt)
    | None => (pg, Throw TypeError)
    end.

(** [appRoot.setAttribute('aria-busy', val)] *)
Definition set_busy (val : string) : action unit :=
  fun pg =>
    match appRoot pg with
    | Some root =>
        ({| title := title pg;
            appRoot := Some {| contents := contents root; aria_busy := Some val |};
            console := console pg |}, Ok tt)
    | None => (pg, Throw TypeError)
    end.

Definition render (year : Z) (i18n : value) : action unit :=
  t <~ lift (getPath i18n "site.title") ;;
  _ <~ set_title t ;;
  container <~ lift (build year i18n) ;;
  _ <~ replaceChildren container ;;
  set_busy "false".

(** The asynchronous body of the bootstrap sequence. *)
Definition sequence (w : world) : action unit :=
  language <~ lift (getLanguage (search w) (config w)) ;;
  i18n <~ lift (loadI18n (config w) (fetch w) language) ;;
  _ <~ lift (validateI18n i18n) ;;
  render (year w) i18n.

(** [console.error(e)] *)
Definition console_error (e : error) (pg : page) : page :=
  {| title := title pg; appRoot := appRoot pg; console := (console pg ++ [e])%list |}.

(** The bootstrap sequence with its [catch]. *)
Definition bootstrap (w : world) (pg : page) : page :=
  match sequence w pg with
  | (pg', Ok _) => pg'
  | (pg', Throw e) => console_error e pg'
  end.

(** The cards of a rendered tree: the children of the grid, which is the
    second child of the second child of the container. *)
Definition cards_of (container : node) : list node :=
  child_nodes (nth 1 (child_nodes (nth 1 (child_nodes container) (Text ""))) (Text "")).


(** ** Derived notions used in the statements *)

(** Every character of the text is white space (the empty text included). *)
Fixpoint all_space (s : string) : bool :=
  match s with
  | "" => true
  | String c r => is_space c && all_space r
  end.

(** An element that shows a text: a class and, unless the text is empty,
    one text node. *)
Definition text_view (tag class_ content : string) : node :=
  Element tag [("class", class_)] (if content =? "" then [] else [Text content]).

(** The action link of a card. *)
Definition link_view (visit href who : string) : node :=
  Element "a"
    [ ("class", "button-link"); ("href", href); ("target", "_blank");
      ("rel", "noopener noreferrer"); ("aria-label", visit ++ ": " ++ who) ]
    (if visit =? "" then [] else [Text visit]).

(** A project card: name and description, then the actions if any. *)
Definition card_view (name desc : string) (link : option node) : node :=
  Element "article" [("class", "project-card")]
    (text_view "h3" "project-name" name
     :: text_view "p" "project-desc" desc
     :: match link with
        | Some a => [Element "div" [("class", "project-actions")] [a]]
        | None => []
        end).

(** The whole tree [render] mounts. *)
Definition page_view (title tagline heading : string) (cards : list node)
           (copyright : string) : node :=
  Element "div" [("class", "container")]
    [ Element "header" [("class", "site-header")]
        [ text_view "h1" "title" title; text_view "p" "tagline" tagline ];
      Element "section" [("class", "projects")]
        [ text_view "h2" "section-title" heading;
          Element "div" [("class", "projects-grid")] cards ];
      Element "footer" [("class", "site-footer")]
        [ Element "div" [] (if copyright =? "" then [] else [Text copyright]) ] ].

(** The action link of a card, if it has one. *)
Definition link_of (card : node) : option node :=
  match child_nodes card with
  | _ :: _ :: actions :: _ => hd_error (child_nodes actions)
  | _ => None
  end.

(** The text of the value a dot-path resolves to, when it has one. *)
Definition text_at (i18n : value) (path : string) : option string :=
  match getPath i18n path with
  | Ok v => match to_string v with Ok s => Some s | Throw _ => None end
  | Throw _ => None
  end.

(** The text of a field of a project entry. *)
Definition field_text (project : value) (key : string) : option string :=
  match get_prop project key with
  | Ok v => match to_string v with Ok s => Some s | Throw _ => None end
  | Throw _ => None
  end.

(** The card of an entry, given the text of the visit label: the texts
    of its [codename] and [description], neither blank, and the link
    when its [url] is truthy. *)
Definition card_for (visit : string) (project : value) (card : node) : Prop :=
  exists name desc u href,
    field_text project "codename" = Some name /\ all_space name = false
    /\ field_text project "description" = Some desc /\ all_space desc = false
    /\ get_prop project "url" = Ok u /\ to_string u = Ok href
    /\ card = card_view name desc
                (if truthy u then Some (link_view visit href name) else None).

(** The card shows the codename and the description of the entry, each
    as one text node under its own element. *)
Definition shows (project : value) (card : node) : Prop :=
  exists name desc rest,
    field_text project "codename" = Some name
    /\ field_text project "description" = Some desc
    /\ card = Element "article" [("class", "project-card")]
                (Element "h3" [("class", "project-name")] [Text name]
                 :: Element "p" [("class", "project-desc")] [Text desc]
                 :: rest).

(** What the renderer needs beyond validation: the copyright line is a
    string, and the title, the tagline, the heading, the visit label and
    the [url] of every entry convert to text. *)
Definition renderable (i18n : value) : bool :=
  forallb (fun p => match text_at i18n p with Some _ => true | None => false end)
          ["site.title"; "site.tagline"; "sections.projects"; "labels.visit"]
  && match getPath i18n "footer.copyright" with
     | Ok (VStr _) => true
     | _ => false
     end
  && match get_prop i18n "projects" with
     | Ok (VArr entries) =>
         forallb (fun e => match field_text e "url" with
                           | Some _ => true
                           | None => false
                           end) entries
     | _ => false
     end.

(** A dot-path resolves to an absent value ([null] or [undefined]). *)
Definition absent (i18n : value) (path : string) : bool :=
  match getPath i18n path with
  | Ok v => nullish v
  | Throw _ => false
  end.

(** The field is there and its text is not blank: what [check_field] lets through. *)
Definition field_ok (project : value) (key : string) : bool :=
  match get_prop project key with
  | Ok v =>
      negb (nullish v)
      && match to_string v with
         | Ok s => negb (trim s =? "")
         | Throw _ => false
         end
  | Throw _ => false
  end.

(** The field is absent, or its text is empty or white space only. *)
Definition field_blank (project : value) (key : string) : bool :=
  match get_prop project key with
  | Ok v =>
      nullish v
      || match to_string v with
         | Ok s => all_space s
         | Throw _ => false
         end
  | Throw _ => false
  end.

(** Both fields [validateI18n] asks of a project entry are there. *)
Definition entry_ok (project : value) : bool :=
  field_ok project "codename" && field_ok project "description".

(** The field of the entry that [validateI18n] reports, if any:
    [codename] before [description]. *)
Definition first_blank (project : value) : option string :=
  if field_blank project "codename" then Some "codename"
  else if field_ok project "codename" && field_blank project "description"
       then Some "description"
       else None.

(** The query gives a usable [lang]: the first value under that name is
    not blank. *)
Definition usable_lang (search : search_params) : bool :=
  match search with
  | Params entries =>
      match params_get "lang" entries with
      | Some v => negb (all_space v)
      | None => false
      end
  | BadQuery => false
  end.

Definition has_dot (s : string) : bool :=
  existsb (Ascii.eqb ".") (list_ascii_of_string s).

(** Booleans, numbers and strings: the values that are not structured. *)
Definition is_primitive (v : value) : bool :=
  match v with
  | VBool _ | VNum _ | VStr _ => true
  | _ => false
  end.

(** *** Lookups beyond the data of a document

    [get_prop] reads the data a value holds.  The runtime also finds,
    under some names, members that a value inherits from the built-in
    prototypes.  [object_members] are the members of [Object.prototype],
    which every value other than [null] and [undefined] inherits;
    [prototype_members] are the further names the prototypes of arrays,
    strings and numbers define. *)
Definition object_members : list string :=
  [ "constructor"; "hasOwnProperty"; "isPrototypeOf"; "propertyIsEnumerable";
    "toLocaleString"; "toString"; "valueOf"; "__proto__";
    "__defineGetter__"; "__defineSetter__"; "__lookupGetter__";
    "__lookupSetter__" ].

Definition prototype_members : list string :=
  [ (* arrays *)
    "at"; "concat"; "copyWithin"; "entries"; "every"; "fill"; "filter";
    "find"; "findIndex"; "findLast"; "findLastIndex"; "flat"; "flatMap";
    "forEach"; "includes"; "indexOf"; "join"; "keys"; "lastIndexOf"; "map";
    "pop"; "push"; "reduce"; "reduceRight"; "reverse"; "shift"; "slice";
    "some"; "sort"; "splice"; "toReversed"; "toSorted"; "toSpliced";
    "unshift"; "values"; "with"; "group"; "groupToMap"; "flatten";
    "contains"; "item";
    (* strings *)
    "anchor"; "big"; "blink"; "bold"; "charAt"; "charCodeAt"; "codePointAt";
    "endsWith"; "fixed"; "fontcolor"; "fontsize"; "isWellFormed"; "italics";
    "link"; "localeCompare"; "match"; "matchAll"; "normalize"; "padEnd";
    "padStart"; "repeat"; "replace"; "replaceAll"; "search"; "small";
    "split"; "strike"; "sub"; "substr"; "substring"; "sup"; "startsWith";
    "toLocaleLowerCase"; "toLocaleUpperCase"; "toLowerCase"; "toUpperCase";
    "toWellFormed"; "trim"; "trimEnd"; "trimLeft"; "trimRight"; "trimStart";
    "quote";
    (* numbers *)
    "toExponential"; "toFixed"; "toPrecision";
    (* names some runtimes had *)
    "toSource"; "watch"; "unwatch" ].

Definition named_in (names : list string) (key : string) : bool :=
  existsb (String.eqb key) names.

(** The key is the name of a member of a built-in prototype. *)
Definition builtin_name (key : string) : bool :=
  named_in object_members key || named_in prototype_members key.

(** No segment of the dot-path is such a name. *)
Definition data_path (dotPath : string) : bool :=
  forallb (fun key => negb (builtin_name key)) (split "." dotPath).

(** What a lookup can find: data, or a built-in object, which is a
    function for every member of [Object.prototype] but [__proto__]. *)
Inductive found : Type :=
| Datum (v : value)
| Builtin (name : string) (callable : bool).

(** The value itself holds something under the key. *)
Definition reads_own (v : value) (key : string) : bool :=
  match v with
  | VObj props => has_key key props
  | VArr _ | VStr _ =>
      (key =? "length")
      || match index_of_key key with Some _ => true | None => false end
  | _ => false
  end.

Definition datum (r : result value) : result found :=
  match r with
  | Ok v => Ok (Datum v)
  | Throw e => Throw e
  end.

(** [acc[key]] with the inherited members.  The answer is [None] where
    this model has none: a property of a built-in object other than the
    two restricted properties of functions, whose getter throws, and a
    name of [prototype_members] on a value that is not a plain object. *)
Definition get_member (acc : found) (key : string) : option (result found) :=
  match acc with
  | Datum v =>
      if nullish v then Some (Throw TypeError)
      else if reads_own v key then Some (datum (get_prop v key))
      else if named_in object_members key
           then Some (Ok (Builtin key (negb (key =? "__proto__"))))
      else match v with
           | VObj _ => Some (Ok (Datum VUndefined))
           | _ => if named_in prototype_members key then None
                  else Some (Ok (Datum VUndefined))
           end
  | Builtin _ true =>
      if (key =? "caller") || (key =? "arguments") then Some (Throw TypeError)
      else None
  | Builtin _ false => None
  end.

(** The callback of [getPath] over what a lookup can find. *)
Definition descend_member (acc : found) (key : string) : option (result found) :=
  match acc with
  | Datum v => if nullish v then Some (Ok acc) else get_member acc key
  | Builtin _ _ => get_member acc key
  end.

Fixpoint walk (keys : list string) (acc : found) : option (result found) :=
  match keys with
  | [] => Some (Ok acc)
  | key :: rest =>
      match descend_member acc key with
      | Some (Ok next) => walk rest next
      | other => other
      end
  end.

(** [getPath] with the inherited members. *)
Definition getPath_runtime (object : value) (dotPath : string)
  : option (result found) :=
  walk (split "." dotPath) (Datum object).

(** A computation that throws nothing but a [TypeError]. *)
Definition only_TypeError {A : Type} (r : result A) : Prop :=
  forall e, r = Throw e -> e = TypeError.

(** The value stored in an object under a chain of field names, each
    object on the way holding a field of that name. *)
Fixpoint dig (keys : list string) (object : value) : option value :=
  match keys with
  | [] => Some object
  | k :: ks =>
      match object with
      | VObj props => if has_key k props then dig ks (lookup k props) else None
      | _ => None
      end
  end.

(** The dot-path of a chain of field names. *)
Fixpoint join_keys (keys : list string) : string :=
  match keys with
  | [] => ""
  | k :: ks =>
      match ks with
      | [] => k
      | _ => k ++ "." ++ join_keys ks
      end
  end.

(** The pattern occurs somewhere in the text. *)
Fixpoint occurs (pat s : string) : bool :=
  match drop_prefix pat s with
  | Some _ => true
  | None =>
      match s with
      | "" => false
      | String _ r => occurs pat r
      end
  end.

(** How often a character occurs in a text. *)
Fixpoint count_char (c : ascii) (s : string) : nat :=
  match s with
  | "" => 0
  | String d r => (if Ascii.eqb c d then 1 else 0) + count_char c r
  end.

(** A name in lower-case letters, digits and hyphens that starts with a
    letter: valid as a tag and as an attribute name, and left as it is
    by the document. *)
Definition plain_char (first : bool) (c : ascii) : bool :=
  let n := nat_of_ascii c in
  ((97 <=? n)%nat && (n <=? 122)%nat)
  || (negb first && (((48 <=? n)%nat && (n <=? 57)%nat) || (n =? 45)%nat)).

Definition plain_name (name : string) : bool :=
  match name with
  | "" => false
  | String c rest =>
      plain_char true c && forallb (plain_char false) (list_ascii_of_string rest)
  end.

(** The attribute [el] leaves under a name, the names of [attrs] being
    distinct: the text of the entry of that name when its value is
    neither [null] nor [undefined]; failing that the class, for the name
    [class]. *)
Definition expected_attribute (o : options) (name : string) : option string :=
  let class_ :=
    match className o with
    | Some c => if (c =? "") || negb (name =? "class") then None else Some c
    | None => None
    end in
  match find (fun entry => fst entry =? name) (attrs o) with
  | Some entry =>
      if nullish (snd entry) then class_
      else match to_string (snd entry) with
           | Ok s => Some s
           | Throw _ => class_
           end
  | None => class_
  end.

(** Reading a percent-encoded text back, to tell encoded texts apart:
    the value of a hexadecimal digit, and the text of an encoding. *)
Definition unhex (c : ascii) : option nat :=
  let n := nat_of_ascii c in
  if (48 <=? n)%nat && (n <=? 57)%nat then Some (n - 48)
  else if (65 <=? n)%nat && (n <=? 70)%nat then Some (n - 55)
  else None.

Definition unpercent (a b : ascii) : option nat :=
  match unhex a, unhex b with
  | Some x, Some y => Some (16 * x + y)
  | _, _ => None
  end.

Fixpoint decode (s : string) : option string :=
  match s with
  | "" => Some ""
  | String c rest =>
      if Ascii.eqb c "%" then
        match rest with
        | String a (String b rest1) =>
            match unpercent a b with
            | Some n =>
                if (n <? 128)%nat
                then option_map (String (ascii_of_nat n)) (decode rest1)
                else
                  match rest1 with
                  | String _ (String a' (String b' rest2)) =>
                      match unpercent a' b' with
                      | Some m =>
                          option_map
                            (String (ascii_of_nat ((n - 192) * 64 + (m - 128))))
                            (decode rest2)
                      | None => None
                      end
                  | _ => None
                  end
            | None => None
            end
        | _ => None
        end
      else option_map (String c) (decode rest)
  end.

(** The same surroundings with another network. *)
Definition with_fetch (w : world) (f : request -> fetch_outcome) : world :=
  {| search := search w; config := config w; fetch := f; year := year w |}.

(** A server that has the resource of one language and nothing else. *)
Definition serving (where_ : string) (doc : value) : request -> fetch_outcome :=
  fun req =>
    if (req_url req =? where_) && (req_cache req =? "no-store")
    then Responded {| ok := true; status := 200; body := Some doc |}
    else Responded {| ok := false; status := 404; body := None |}.

(** ** Sample documents, pages and surroundings *)

(** A document with one project that has a link and one that has none. *)
Definition orbit_doc : value :=
  VObj [ ("site", VObj [("title", VStr "Capri"); ("tagline", VStr "Blue")]);
         ("sections", VObj [("projects", VStr "Projects")]);
         ("labels", VObj [("visit", VStr "Visit")]);
         ("footer", VObj [("copyright", VStr "(c) {year} Acme")]);
         ("projects",
          VArr [ VObj [ ("codename", VStr "Orbit"); ("description", VStr "A tool");
                        ("url", VStr "https://x.test") ];
                 VObj [ ("codename", VStr "Nova"); ("description", VStr "A star") ] ]) ].

(** The same document with numbers where the schema has strings. *)
Definition numeric_doc : value :=
  VObj [ ("site", VObj [("title", VNum 42); ("tagline", VStr "Blue")]);
         ("sections", VObj [("projects", VStr "Projects")]);
         ("labels", VObj [("visit", VStr "Visit")]);
         ("footer", VObj [("copyright", VNum 2024)]);
         ("projects",
          VArr [ VObj [ ("codename", VStr "Orbit"); ("description", VNum 7) ] ]) ].

(** A document whose only project has an empty [url]. *)
Definition empty_url_doc : value :=
  VObj [ ("site", VObj [("title", VStr "Capri"); ("tagline", VStr "Blue")]);
         ("sections", VObj [("projects", VStr "Projects")]);
         ("labels", VObj [("visit", VStr "Visit")]);
         ("footer", VObj [("copyright", VStr "(c) {year} Acme")]);
         ("projects",
          VArr [ VObj [ ("codename", VStr "Orbit"); ("description", VStr "A tool");
                        ("url", VStr "") ] ]) ].

(** A document with a title only, and a [projects] that is no array. *)
Definition title_only_doc : value :=
  VObj [ ("site", VObj [("title", VStr "Capri")]); ("projects", VStr "none") ].

(** A document whose second project has a blank description. *)
Definition blank_desc_doc : value :=
  VObj [ ("site", VObj [("title", VStr "Capri"); ("tagline", VStr "Blue")]);
         ("sections", VObj [("projects", VStr "Projects")]);
         ("labels", VObj [("visit", VStr "Visit")]);
         ("footer", VObj [("copyright", VStr "(c) {year} Acme")]);
         ("projects",
          VArr [ VObj [ ("codename", VStr "Orbit"); ("description", VStr "A tool") ];
                 VObj [ ("codename", VStr "Nova"); ("description", VStr "  ") ] ]) ].

(** The page before the script runs: a static shell, marked busy. *)
Definition shell : page :=
  {| title := "";
     appRoot := Some {| contents := [Text "Loading"]; aria_busy := Some "true" |};
     console := [] |}.

(** A server that has no French resource: every request gets a 404. *)
Definition french_missing : world :=
  {| search := Params [("lang", "fr")];
     config := VUndefined;
     fetch := fun _ => Responded {| ok := false; status := 404; body := None |};
     year := 2025 |}.

(** A document whose second project is [null]. *)
Definition null_entry_doc : value :=
  VObj [ ("site", VObj [("title", VStr "Capri"); ("tagline", VStr "Blue")]);
         ("sections", VObj [("projects", VStr "Projects")]);
         ("labels", VObj [("visit", VStr "Visit")]);
         ("footer", VObj [("copyright", VStr "(c) {year} Acme")]);
         ("projects",
          VArr [ VObj [ ("codename", VStr "Orbit"); ("description", VStr "A tool") ];
                 VNull ]) ].

(** A document with every required key, whose [projects] is a text. *)
Definition no_array_doc : value :=
  VObj [ ("site", VObj [("title", VNum 1); ("tagline", VNum 2)]);
         ("sections", VObj [("projects", VNum 3)]);
         ("labels", VObj [("visit", VNum 4)]);
         ("footer", VObj [("copyright", VNum 5)]);
         ("projects", VStr "none") ].

(** The footer of a rendered tree: the third child of the container. *)
Definition footer_of (container : node) : node :=
  nth 2 (child_nodes container) (Text "").

(** A visit to [?lang=%20fr] on a server that has the French resource. *)
Definition french_served : world :=
  {| search := Params [("lang", " fr")];
     config := VUndefined;
     fetch := serving "i18n/fr.json" orbit_doc;
     year := 2025 |}.

(** A document whose copyright line has a brace before the first
    [{year}] and a second [{year}] after it. *)
Definition brace_doc : value :=
  VObj [ ("site", VObj [("title", VStr "Capri"); ("tagline", VStr "Blue")]);
         ("sections", VObj [("projects", VStr "Projects")]);
         ("labels", VObj [("visit", VStr "Visit")]);
         ("footer", VObj [("copyright", VStr "{c} {year} to {year}")]);
         ("projects", VArr []) ].

(** ** Texts *)

Lemma trimEnd_empty (s : string) : trimEnd s = "" <-> all_space s = true.
Proof.
  induction s as [|c r IH]; simpl.
  - tauto.
  - destruct (trimEnd r) eqn:E.
    + destruct (is_space c); simpl.
      * rewrite <- IH. tauto.
      * split; discriminate.
    + split; [discriminate|].
      intros H. apply andb_prop in H. destruct H as [_ H].
      apply IH in H. discriminate.
Qed.

Lemma trimStart_all_space (s : string) : all_space (trimStart s) = all_space s.
Proof.
  induction s as [|c r IH]; simpl; [reflexivity|].
  destruct (is_space c) eqn:E; simpl.
  - exact IH.
  - now rewrite E.
Qed.

Lemma trim_empty (s : string) : trim s = "" <-> all_space s = true.
Proof.
  unfold trim. rewrite trimEnd_empty, trimStart_all_space. tauto.
Qed.

Lemma trim_eqb_all_space (s : string) : (trim s =? "") = all_space s.
Proof.
  destruct (all_space s) eqn:E.
  - apply String.eqb_eq, trim_empty, E.
  - apply String.eqb_neq. intros H. apply trim_empty in H. congruence.
Qed.

Lemma split_nonempty (sep : ascii) (s : string) : split sep s <> [].
Proof.
  destruct s as [|c r]; simpl; [discriminate|].
  destruct (Ascii.eqb c sep); [discriminate|].
  destruct (split sep r); discriminate.
Qed.

Lemma split_app (sep : ascii) (p q : string) :
  split sep (p ++ String sep q) = (split sep p ++ split sep q)%list.
Proof.
  induction p as [|c r IH]; simpl.
  - now rewrite Ascii.eqb_refl.
  - destruct (Ascii.eqb c sep); rewrite IH; [reflexivity|].
    destruct (split sep r) eqn:E; [|reflexivity].
    now apply split_nonempty in E.
Qed.

Lemma split_no_sep (s : string) : has_dot s = false -> split "." s = [s].
Proof.
  unfold has_dot. induction s as [|c r IH]; [reflexivity|].
  cbn [list_ascii_of_string existsb split]. intros H.
  apply orb_false_elim in H. destruct H as [Hc Hr].
  rewrite Ascii.eqb_sym, Hc, (IH Hr). reflexivity.
Qed.

(** ** Property access and dot-paths *)

Lemma get_prop_ok (v : value) (key : string) :
  nullish v = false -> exists r, get_prop v key = Ok r.
Proof.
  destruct v; simpl; try discriminate; intros _; eauto.
  - destruct (key =? "length"); [eauto|]. destruct (index_of_key key); eauto.
  - destruct (key =? "length"); [eauto|]. destruct (index_of_key key); eauto.
Qed.

Lemma descend_total (keys : list string) (object : value) :
  exists v, reduce descend keys object = Ok v.
Proof.
  revert object. induction keys as [|k ks IH]; intros object; simpl; [eauto|].
  unfold descend at 1. destruct (nullish object) eqn:E; simpl; [apply IH|].
  destruct (get_prop_ok object k E) as [r ->]. simpl. apply IH.
Qed.

Lemma descend_absent (keys : list string) (v : value) :
  nullish v = true -> reduce descend keys v = Ok v.
Proof.
  intros H. induction keys as [|k ks IH]; simpl; [reflexivity|].
  unfold descend at 1. rewrite H. simpl. exact IH.
Qed.

Lemma reduce_app {A B : Type} (f : A -> B -> result A) (l1 l2 : list B) (a : A) :
  reduce f (l1 ++ l2)%list a = (x <- reduce f l1 a ;; reduce f l2 x).
Proof.
  revert a. induction l1 as [|b l1 IH]; intros a; simpl; [reflexivity|].
  destruct (f a b); simpl; [apply IH | reflexivity].
Qed.

Lemma getPath_descend (object : value) (dotPath : string) :
  getPath object dotPath = reduce descend (split "." dotPath) object.
Proof. reflexivity. Qed.

Lemma getPath_total (object : value) (dotPath : string) :
  exists v, getPath object dotPath = Ok v.
Proof. rewrite getPath_descend. apply descend_total. Qed.

Lemma getPath_extend (object : value) (dotPath rest : string) :
  getPath object (dotPath ++ "." ++ rest)
  = (v <- getPath object dotPath ;; getPath v rest).
Proof.
  rewrite !getPath_descend. simpl (_ ++ _ ++ _).
  change ("." ++ rest) with (String "." rest).
  rewrite split_app, reduce_app. reflexivity.
Qed.

Lemma getPath_single (object : value) (key : string) :
  has_dot key = false ->
  getPath object key = (if nullish object then Ok object else get_prop object key).
Proof.
  intros H. rewrite getPath_descend, (split_no_sep key H). simpl.
  unfold descend. destruct (nullish object); [reflexivity|].
  destruct (get_prop object key); reflexivity.
Qed.

Lemma getPath_of_absent (v : value) (dotPath : string) :
  nullish v = true -> getPath v dotPath = Ok v.
Proof. intros H. rewrite getPath_descend. now apply descend_absent. Qed.

(** *** Lookups with the inherited members *)

Lemma lookup_missing (key : string) (props : list (string * value)) :
  has_key key props = false -> lookup key props = VUndefined.
Proof.
  induction props as [|[k v] rest IH]; cbn [has_key lookup]; [reflexivity|].
  destruct (k =? key); [discriminate | exact IH].
Qed.

Lemma get_prop_not_own (v : value) (key : string) :
  nullish v = false -> reads_own v key = false -> get_prop v key = Ok VUndefined.
Proof.
  destruct v; cbn [nullish reads_own get_prop]; try discriminate;
    intros _ H; try reflexivity.
  - apply orb_false_elim in H. destruct H as [-> H].
    destruct (index_of_key key); [discriminate | reflexivity].
  - apply orb_false_elim in H. destruct H as [-> H].
    destruct (index_of_key key); [discriminate | reflexivity].
  - now rewrite lookup_missing.
Qed.

Lemma get_member_data (v : value) (key : string) :
  builtin_name key = false -> nullish v = false ->
  get_member (Datum v) key = Some (datum (get_prop v key)).
Proof.
  unfold builtin_name. intros Hb Hn.
  apply orb_false_elim in Hb. destruct Hb as [Ho Hp].
  unfold get_member. rewrite Hn.
  destruct (reads_own v key) eqn:Er; [reflexivity|].
  rewrite Ho, (get_prop_not_own v key Hn Er).
  destruct v; rewrite ?Hp; reflexivity.
Qed.

Lemma descend_member_data (v : value) (key : string) :
  builtin_name key = false ->
  descend_member (Datum v) key = Some (datum (descend v key)).
Proof.
  intros Hb. unfold descend_member, descend.
  destruct (nullish v) eqn:Hn; [reflexivity | now apply get_member_data].
Qed.

Lemma descend_member_ok (v : value) (key : string) :
  named_in prototype_members key = false ->
  exists f, descend_member (Datum v) key = Some (Ok f).
Proof.
  intros Hp. unfold descend_member.
  destruct (nullish v) eqn:Hn; [eauto|].
  unfold get_member. rewrite Hn.
  destruct (reads_own v key).
  - destruct (get_prop_ok v key Hn) as [r ->]. cbn [datum]. eauto.
  - destruct (named_in object_members key); [eauto|].
    destruct v; rewrite ?Hp; eauto.
Qed.

Lemma walk_data (keys : list string) :
  forall v,
    forallb (fun key => negb (builtin_name key)) keys = true ->
    walk keys (Datum v) = Some (datum (reduce descend keys v)).
Proof.
  induction keys as [|k ks IH]; intros v; cbn [walk reduce forallb];
    [reflexivity|].
  intros H. apply andb_prop in H. destruct H as [Hk Hks].
  apply negb_true_iff in Hk. rewrite (descend_member_data v k Hk).
  destruct (descend v k) as [next|e]; cbn [datum bind];
    [now apply IH | reflexivity].
Qed.

Lemma walk_app (keys1 keys2 : list string) :
  forall acc,
    walk (keys1 ++ keys2)%list acc
    = match walk keys1 acc with
      | Some (Ok next) => walk keys2 next
      | other => other
      end.
Proof.
  induction keys1 as [|k ks IH]; intros acc; cbn [walk app]; [reflexivity|].
  destruct (descend_member acc k) as [[next|e]|]; [apply IH | reflexivity..].
Qed.

Lemma walk_absent (keys : list string) (v : value) :
  nullish v = true -> walk keys (Datum v) = Some (Ok (Datum v)).
Proof.
  intros Hn. induction keys as [|k ks IH]; cbn [walk]; [reflexivity|].
  unfold descend_member. rewrite Hn. exact IH.
Qed.

Lemma getPath_runtime_extend (object v : value) (dotPath rest : string) :
  getPath_runtime object dotPath = Some (Ok (Datum v)) ->
  getPath_runtime object (dotPath ++ "." ++ rest) = getPath_runtime v rest.
Proof.
  unfold getPath_runtime. intros H.
  change ("." ++ rest) with (String "." rest).
  now rewrite split_app, walk_app, H.
Qed.



(** ** The validator *)

Lemma check_path_absent (i18n : value) (path : string) :
  check_path i18n path
  = if absent i18n path then Throw (MissingKey path) else Ok tt.
Proof.
  unfold check_path, absent.
  destruct (getPath_total i18n path) as [v ->]. reflexivity.
Qed.

Lemma for_of_first_throw {A : Type} (body : A -> result unit)
      (before after : list A) (x : A) (e : error) :
  Forall (fun y => body y = Ok tt) before ->
  body x = Throw e ->
  for_of body (before ++ x :: after)%list = Throw e.
Proof.
  intros Hb Hx. induction Hb as [|y l Hy _ IH]; simpl.
  - now rewrite Hx.
  - now rewrite Hy.
Qed.

Lemma for_of_all_ok {A : Type} (body : A -> result unit) (l : list A) :
  Forall (fun y => body y = Ok tt) l <-> for_of body l = Ok tt.
Proof.
  induction l as [|y l IH]; simpl.
  - split; [reflexivity | constructor].
  - split.
    + intros H. inversion H as [|? ? Hy Hl]; subst. rewrite Hy. simpl.
      now apply IH.
    + destruct (body y) as [[]|e] eqn:E; simpl; [|discriminate].
      intros H. constructor; [exact E | now apply IH].
Qed.

Lemma first_absent (i18n : value) (paths : list string) :
  (exists p, In p paths /\ absent i18n p = true) ->
  exists before path after,
    paths = (before ++ path :: after)%list
    /\ Forall (fun p => absent i18n p = false) before
    /\ absent i18n path = true.
Proof.
  induction paths as [|q paths IH]; intros [p [Hin Hp]]; [destruct Hin|].
  destruct (absent i18n q) eqn:E.
  - exists [], q, paths. repeat split; [constructor | exact E].
  - destruct Hin as [->|Hin]; [congruence|].
    destruct IH as [before [path [after [-> [Hb Ha]]]]]; [eauto|].
    exists (q :: before), path, after. repeat split; [|exact Ha].
    now constructor.
Qed.

Lemma validateI18n_first_absent (i18n : value) (before after : list string)
      (path : string) :
  requiredPaths = (before ++ path :: after)%list ->
  Forall (fun p => absent i18n p = false) before ->
  absent i18n path = true ->
  validateI18n i18n = Throw (MissingKey path).
Proof.
  intros Hreq Hb Hp. unfold validateI18n. rewrite Hreq.
  rewrite (for_of_first_throw _ before after path (MissingKey path)).
  - reflexivity.
  - eapply Forall_impl; [|exact Hb]. intros q Hq.
    now rewrite check_path_absent, Hq.
  - now rewrite check_path_absent, Hp.
Qed.

(** C1.  A document in which one of the six required dot-paths resolves
    to an absent value is never accepted: [validateI18n] throws the
    missing-key error naming the first such path in the listed order
    (every required path before it resolves to a present value), whatever
    the shape of [projects] and of its entries; the message of the error
    carries that path. *)
Theorem validateI18n_missing_key (i18n : value) :
  (exists p, In p requiredPaths /\ absent i18n p = true) ->
  exists before path after,
    requiredPaths = (before ++ path :: after)%list
    /\ Forall (fun p => absent i18n p = false) before
    /\ absent i18n path = true
    /\ validateI18n i18n = Throw (MissingKey path)
    /\ message (MissingKey path) = Some ("Missing i18n key: " ++ path).
Proof.
  intros H. destruct (first_absent i18n requiredPaths H)
    as [before [path [after [Hreq [Hb Hp]]]]].
  exists before, path, after. repeat split; try assumption.
  now apply (validateI18n_first_absent i18n before after path).
Qed.

Lemma check_field_ok (index : nat) (project : value) (key : string) :
  check_field index project key = Ok tt <-> field_ok project key = true.
Proof.
  unfold check_field, field_ok.
  destruct (get_prop project key) as [v|e]; simpl; [|split; discriminate].
  destruct (nullish v); simpl; [split; discriminate|].
  destruct (to_string v) as [s|e]; simpl; [|split; discriminate].
  destruct (trim s =? ""); simpl; split; try discriminate; reflexivity.
Qed.

Lemma check_field_blank (index : nat) (project : value) (key : string) :
  field_blank project key = true ->
  check_field index project key = Throw (MissingProjectField index key).
Proof.
  unfold check_field, field_blank.
  destruct (get_prop project key) as [v|e]; simpl; [|discriminate].
  destruct (nullish v); simpl; [reflexivity|].
  destruct (to_string v) as [s|e]; simpl; [|discriminate].
  rewrite trim_eqb_all_space. now intros ->.
Qed.

Lemma check_project_ok (index : nat) (project : value) :
  check_project index project = Ok tt <-> entry_ok project = true.
Proof.
  unfold check_project, entry_ok. rewrite <- for_of_all_ok, andb_true_iff.
  rewrite <- !(check_field_ok index). split.
  - intros H. inversion H as [|? ? H1 H']; subst.
    inversion H' as [|? ? H2 _]; subst. now split.
  - intros [H1 H2]. repeat constructor; assumption.
Qed.

Lemma check_project_blank (index : nat) (project : value) (key : string) :
  first_blank project = Some key ->
  check_project index project = Throw (MissingProjectField index key).
Proof.
  unfold first_blank, check_project. simpl.
  destruct (field_blank project "codename") eqn:E1.
  - intros [= <-]. now rewrite (check_field_blank _ _ _ E1).
  - destruct (field_ok project "codename") eqn:E2; simpl; [|discriminate].
    destruct (field_blank project "description") eqn:E3; [|discriminate].
    intros [= <-]. apply (check_field_ok index) in E2. rewrite E2. simpl.
    now rewrite (check_field_blank _ _ _ E3).
Qed.

Lemma for_entries_first_throw {A : Type} (body : nat -> A -> result unit)
      (before after : list A) (x : A) (e : error) (index : nat) :
  Forall (fun y => forall i, body i y = Ok tt) before ->
  body (index + List.length before) x = Throw e ->
  for_entries body index (before ++ x :: after)%list = Throw e.
Proof.
  intros Hb. revert index.
  induction Hb as [|y l Hy _ IH]; intros index Hx; simpl in *.
  - rewrite Nat.add_0_r in Hx. now rewrite Hx.
  - rewrite Hy. simpl. apply IH. now rewrite Nat.add_succ_comm.
Qed.

Lemma for_entries_all_ok {A : Type} (body : nat -> A -> result unit)
      (ok_entry : A -> Prop) (l : list A) :
  (forall i y, body i y = Ok tt <-> ok_entry y) ->
  forall index, for_entries body index l = Ok tt <-> Forall ok_entry l.
Proof.
  intros Hbody. induction l as [|y l IH]; intros index; simpl.
  - split; [constructor | reflexivity].
  - split.
    + destruct (body index y) as [[]|e] eqn:E; simpl; [|discriminate].
      intros H. constructor; [now apply (Hbody index) | now apply (IH (S index))].
    + intros H. inversion H as [|? ? Hy Hl]; subst.
      apply (Hbody index) in Hy. rewrite Hy. simpl. now apply IH.
Qed.

Lemma required_paths_checked (i18n : value) :
  for_of (check_path i18n) requiredPaths = Ok tt
  <-> Forall (fun p => absent i18n p = false) requiredPaths.
Proof.
  rewrite <- for_of_all_ok. split; intros H; (eapply Forall_impl; [|exact H]);
    intros p; cbv beta; rewrite check_path_absent; destruct (absent i18n p);
    congruence.
Qed.

(** What [validateI18n] accepts, exactly. *)
Lemma validateI18n_accepts (i18n : value) :
  validateI18n i18n = Ok tt
  <-> Forall (fun p => absent i18n p = false) requiredPaths
      /\ exists entries,
           get_prop i18n "projects" = Ok (VArr entries)
           /\ Forall (fun e => entry_ok e = true) entries.
Proof.
  unfold validateI18n. rewrite <- required_paths_checked.
  destruct (for_of (check_path i18n) requiredPaths) as [[]|e]; simpl.
  - destruct (get_prop i18n "projects") as [v|e]; simpl.
    + destruct v; try (split; [discriminate | intros [_ [l [[=] _]]]]).
      rewrite (for_entries_all_ok check_project (fun e => entry_ok e = true));
        [|intros; apply check_project_ok].
      split.
      * intros H. split; [reflexivity|]. now exists elems.
      * intros [_ [l [[= <-] H]]]. exact H.
    + split; [discriminate | intros [_ [l [[=] _]]]].
  - split; [discriminate | intros [[=] _]].
Qed.

(** C10.  [validateI18n] checks presence only.  A document in which each
    of the six required dot-paths resolves to a value other than [null]
    and [undefined], whose [projects] is an array, and in which the
    [codename] and the [description] of every entry are there and
    convert to a text that is not blank, is accepted: nothing is asked
    of the types of the values, so titles or a copyright line that are
    numbers pass and reach the renderer as they are. *)
Theorem validateI18n_presence_only (i18n : value) (entries : list value) :
  Forall (fun p => absent i18n p = false) requiredPaths ->
  get_prop i18n "projects" = Ok (VArr entries) ->
  Forall (fun e => entry_ok e = true) entries ->
  validateI18n i18n = Ok tt.
Proof.
  intros Hp Hprojects He. apply validateI18n_accepts.
  split; [exact Hp|]. now exists entries.
Qed.



(** ** The language resolver *)

Lemma config_field_total (config : value) (key : string) :
  exists v, config_field config key = Ok v.
Proof.
  unfold config_field. destruct (truthy config) eqn:E; [|eauto].
  apply get_prop_ok. now destruct config.
Qed.

(** C6, as stated, fails on surrounding white space: for the query
    [?lang=%20fr%20], whose [lang] is the text [ fr ] with a space on
    each side, the resolver returns [fr]. *)
Lemma getLanguage_trims :
  params_get "lang" [("lang", " fr ")] = Some " fr "
  /\ trim " fr " <> ""
  /\ getLanguage (Params [("lang", " fr ")]) VUndefined = Ok (VStr "fr")
  /\ getLanguage (Params [("lang", " fr ")]) VUndefined <> Ok (VStr " fr ").
Proof. repeat split; discriminate. Qed.

(** C6, amended.  When the first [lang] parameter of the query has a
    value [X] that is not empty after trimming, the resolver returns [X]
    with its leading and trailing white space removed and otherwise
    unchanged (no other normalization, no allow-list), whatever the
    other parameters and the configuration are; an [X] without
    surrounding white space is returned as it is. *)
Theorem getLanguage_lang_param
        (entries : list (string * string)) (config : value) (X : string) :
  params_get "lang" entries = Some X ->
  trim X <> "" ->
  getLanguage (Params entries) config = Ok (VStr (trim X))
  /\ (trim X = X -> getLanguage (Params entries) config = Ok (VStr X)).
Proof.
  intros Hget Hx.
  assert (H : getLanguage (Params entries) config = Ok (VStr (trim X))).
  { unfold getLanguage. rewrite Hget.
    apply String.eqb_neq in Hx. now rewrite Hx. }
  split; [exact H|]. intros E. now rewrite E in H.
Qed.

(** C7.  The resolver never fails.  Without a usable [lang] value (the
    parameter absent, empty or white space only, or the query not
    parseable) it returns the configured default language when the
    configuration supplies one, the value of [defaultLanguage], and the
    literal [en] when no configuration is supplied or it names no
    default language. *)
Theorem getLanguage_default (search : search_params) (config : value) :
  (exists v, getLanguage search config = Ok v)
  /\ (usable_lang search = false ->
      (nullish config = true -> getLanguage search config = Ok (VStr "en"))
      /\ (forall d,
            truthy config = true ->
            get_prop config "defaultLanguage" = Ok d ->
            getLanguage search config = Ok (if truthy d then d else VStr "en"))).
Proof.
  split.
  - unfold getLanguage.
    destruct (negb (_ =? "")); [eauto|].
    destruct (config_field_total config "defaultLanguage") as [d ->].
    simpl. eauto.
  - intros Hu.
    assert (E : getLanguage search config
                = (d <- config_field config "defaultLanguage" ;;
                   Ok (if truthy d then d else VStr "en"))).
    { unfold getLanguage, usable_lang in *.
      destruct search as [|entries]; [reflexivity|].
      destruct (params_get "lang" entries) as [v|]; [|reflexivity].
      rewrite trim_eqb_all_space.
      apply negb_false_iff in Hu. now rewrite Hu. }
    rewrite E. unfold config_field. split.
    + intros Hn. destruct config; try discriminate; reflexivity.
    + intros d Ht Hd. now rewrite Ht, Hd.
Qed.

(** ** The loader *)

Lemma basePath_cases (config : value) :
  (truthy config = false -> basePath config = Ok (VStr "i18n"))
  /\ (forall p, truthy config = true -> get_prop config "i18nPath" = Ok p ->
        basePath config = Ok (if truthy p then p else VStr "i18n")).
Proof.
  unfold basePath, config_field. split.
  - intros H. rewrite H. simpl. now rewrite H.
  - intros p H Hp. now rewrite H, Hp.
Qed.

(** C5.  [loadI18n] asks for the location made of the base path, a
    slash, the percent-encoded language code and [.json], with caching
    disabled; the base path is the configured [i18nPath], and [i18n]
    when none is configured.  When the response is not a success the
    call fails with the resource-unavailable error carrying that
    location and the status of the response; when the body cannot be
    parsed it fails with the malformed-resource error carrying the
    language code. *)
Theorem loadI18n_failures
        (config : value) (fetch : request -> fetch_outcome) (language : value)
        (b : value) (base lang : string) (r : response) :
  basePath config = Ok b ->
  to_string b = Ok base ->
  to_string language = Ok lang ->
  fetch {| req_url := base ++ "/" ++ encodeURIComponent lang ++ ".json";
           req_cache := "no-store" |} = Responded r ->
  (truthy config = false -> base = "i18n")
  /\ (forall p, truthy config = true -> get_prop config "i18nPath" = Ok p ->
        truthy p = false -> base = "i18n")
  /\ (forall p, truthy config = true ->
        get_prop config "i18nPath" = Ok (VStr p) -> p <> "" -> base = p)
  /\ (ok r = false ->
      loadI18n config fetch language
      = Throw (ResourceUnavailable
                 (base ++ "/" ++ encodeURIComponent lang ++ ".json") (status r)))
  /\ (ok r = true -> body r = None ->
      loadI18n config fetch language = Throw (MalformedResource lang))
  /\ (ok r = true -> forall parsed, body r = Some parsed ->
      loadI18n config fetch language = Ok parsed).
Proof.
  intros Hb Hbase Hlang Hfetch.
  destruct (basePath_cases config) as [Hdefault Hconfigured].
  split; [|split; [|split]].
  - intros H. rewrite (Hdefault H) in Hb. injection Hb as <-.
    simpl in Hbase. congruence.
  - intros p H Hp Hf. rewrite (Hconfigured _ H Hp), Hf in Hb.
    injection Hb as <-. simpl in Hbase. congruence.
  - intros p H Hp Hne. rewrite (Hconfigured _ H Hp) in Hb.
    simpl in Hb. apply String.eqb_neq in Hne. rewrite Hne in Hb.
    simpl in Hb. injection Hb as <-. simpl in Hbase. congruence.
  - unfold loadI18n. rewrite Hb. simpl. rewrite Hbase. simpl.
    rewrite Hlang. simpl. unfold location. rewrite Hfetch.
    repeat split.
    + now intros ->.
    + now intros -> ->.
    + now intros -> parsed ->.
Qed.

(** ** The renderer and the bootstrap sequence *)

Lemma render_failure (year : Z) (i18n : value) (pg pg' : page) (e : error) :
  render year i18n pg = (pg', Throw e) ->
  appRoot pg' = appRoot pg /\ console pg' = console pg.
Proof.
  unfold render, then_, lift, set_title, replaceChildren, set_busy.
  destruct (getPath i18n "site.title") as [t|e0]; [|now intros [= <- _]].
  destruct (to_string t) as [s|e0]; [|now intros [= <- _]].
  destruct (build year i18n) as [container|e0]; [|now intros [= <- _]].
  simpl. destruct (appRoot pg) as [root|] eqn:E; simpl.
  - discriminate.
  - intros [= <- _]. now split.
Qed.

Lemma sequence_failure (w : world) (pg pg' : page) (e : error) :
  sequence w pg = (pg', Throw e) ->
  appRoot pg' = appRoot pg /\ console pg' = console pg.
Proof.
  unfold sequence, then_, lift.
  destruct (getLanguage (search w) (config w)) as [language|e0];
    [|now intros [= <- _]].
  destruct (loadI18n (config w) (fetch w) language) as [i18n|e0];
    [|now intros [= <- _]].
  destruct (validateI18n i18n) as [[]|e0]; [|now intros [= <- _]].
  apply render_failure.
Qed.


Lemma el_classed (tag c : string) :
  (c =? "") = false -> el tag (classed c) = Ok (Element tag [("class", c)] []).
Proof. intros H. unfold el, classed. simpl. now rewrite H. Qed.

Lemma el_labelled (tag c : string) (t : value) (s : string) :
  (c =? "") = false -> nullish t = false -> to_string t = Ok s ->
  el tag (labelled c t) = Ok (text_view tag c s).
Proof.
  intros H Hn Hs. unfold el, labelled. simpl. rewrite H, Hn, Hs. reflexivity.
Qed.

Lemma field_ok_inv (project : value) (key : string) :
  field_ok project key = true ->
  exists v s, get_prop project key = Ok v /\ nullish v = false
              /\ to_string v = Ok s /\ all_space s = false.
Proof.
  unfold field_ok. destruct (get_prop project key) as [v|e]; [|discriminate].
  destruct (nullish v) eqn:Hn; simpl; [discriminate|].
  destruct (to_string v) as [s|e] eqn:Hs; [|discriminate].
  rewrite trim_eqb_all_space. intros H. exists v, s.
  apply negb_true_iff in H. now repeat split.
Qed.

Lemma make_card_plain (i18n project cv dv u : value) (name desc : string) :
  get_prop project "codename" = Ok cv -> nullish cv = false ->
  to_string cv = Ok name ->
  get_prop project "description" = Ok dv -> nullish dv = false ->
  to_string dv = Ok desc ->
  get_prop project "url" = Ok u -> truthy u = false ->
  make_card i18n project = Ok (card_view name desc None).
Proof.
  intros Hc Hcn Hcs Hd Hdn Hds Hu Ht. unfold make_card.
  rewrite el_classed by reflexivity. cbn [bind]. rewrite Hc. cbn [bind].
  rewrite (el_labelled _ _ _ name) by (reflexivity || assumption). cbn [bind].
  rewrite Hd. cbn [bind].
  rewrite (el_labelled _ _ _ desc) by (reflexivity || assumption). cbn [bind].
  rewrite Hu. cbn [bind]. rewrite Ht. reflexivity.
Qed.

Lemma make_card_linked (i18n project cv dv u vl : value)
      (name desc visit href : string) :
  get_prop project "codename" = Ok cv -> nullish cv = false ->
  to_string cv = Ok name ->
  get_prop project "description" = Ok dv -> nullish dv = false ->
  to_string dv = Ok desc ->
  get_prop project "url" = Ok u -> truthy u = true -> to_string u = Ok href ->
  getPath i18n "labels.visit" = Ok vl -> nullish vl = false ->
  to_string vl = Ok visit ->
  make_card i18n project
  = Ok (card_view name desc (Some (link_view visit href name))).
Proof.
  intros Hc Hcn Hcs Hd Hdn Hds Hu Ht Hus Hv Hvn Hvs. unfold make_card.
  rewrite el_classed by reflexivity. cbn [bind]. rewrite Hc. cbn [bind].
  rewrite (el_labelled _ _ _ name) by (reflexivity || assumption). cbn [bind].
  rewrite Hd. cbn [bind].
  rewrite (el_labelled _ _ _ desc) by (reflexivity || assumption). cbn [bind].
  rewrite Hu. cbn [bind]. rewrite Ht.
  rewrite el_classed by reflexivity. cbn [bind]. rewrite Hv. cbn [bind].
  rewrite Hvs. cbn [bind]. rewrite Hcs. cbn [bind].
  assert (Hnu : nullish u = false) by (destruct u; discriminate || reflexivity).
  unfold el. simpl. rewrite Hvn, Hvs. simpl. rewrite Hnu, Hus. reflexivity.
Qed.

Lemma all_space_nonempty (s : string) : all_space s = false -> (s =? "") = false.
Proof. destruct s; [discriminate | reflexivity]. Qed.

Section Cards.

(** The visit label of the document: present, with a text. *)
Variables (i18n vl : value) (visit : string).
Hypothesis visit_at : getPath i18n "labels.visit" = Ok vl.
Hypothesis visit_present : nullish vl = false.
Hypothesis visit_text : to_string vl = Ok visit.

Lemma make_card_entry (project : value) (href : string) :
  entry_ok project = true ->
  field_text project "url" = Some href ->
  exists card, make_card i18n project = Ok card /\ card_for visit project card.
Proof.
  intros Hok Hurl. unfold entry_ok in Hok.
  apply andb_prop in Hok. destruct Hok as [Hc Hd].
  apply field_ok_inv in Hc. destruct Hc as [cv [name [Hc [Hcn [Hcs Hcb]]]]].
  apply field_ok_inv in Hd. destruct Hd as [dv [desc [Hd [Hdn [Hds Hdb]]]]].
  unfold field_text in Hurl.
  destruct (get_prop project "url") as [u|] eqn:Hu; [|discriminate].
  destruct (to_string u) as [h|] eqn:Hus; [|discriminate].
  injection Hurl as ->.
  exists (card_view name desc
            (if truthy u then Some (link_view visit href name) else None)).
  split.
  - destruct (truthy u) eqn:Ht.
    + now apply (make_card_linked i18n project cv dv u vl).
    + now apply (make_card_plain i18n project cv dv u).
  - exists name, desc, u, href. unfold field_text.
    rewrite Hc, Hcs, Hd, Hds. now repeat split.
Qed.

Lemma make_cards (entries : list value) :
  Forall (fun e => entry_ok e = true) entries ->
  forallb (fun e => match field_text e "url" with
                    | Some _ => true
                    | None => false
                    end) entries = true ->
  exists cards,
    Forall2 (fun e c => make_card i18n e = Ok c) entries cards
    /\ Forall2 (card_for visit) entries cards.
Proof.
  intros Hok. induction Hok as [|e l He _ IH]; simpl; intros Hurl.
  - exists []. split; constructor.
  - apply andb_prop in Hurl. destruct Hurl as [Hu Hl].
    destruct (field_text e "url") as [href|] eqn:Hhref; [|discriminate].
    destruct (make_card_entry e href He Hhref) as [card [Hcard Hfor]].
    destruct (IH Hl) as [cards [H1 H2]].
    exists (card :: cards). split; now constructor.
Qed.

End Cards.

Lemma reduce_add_card (i18n : value) (entries : list value) (cards : list node)
      (tag : string) (attributes : list (string * string)) (kids : list node) :
  Forall2 (fun e c => make_card i18n e = Ok c) entries cards ->
  reduce (add_card i18n) entries (Element tag attributes kids)
  = Ok (Element tag attributes (kids ++ cards)%list).
Proof.
  intros H. revert kids. induction H as [|e c l l' He _ IH]; intros kids; simpl.
  - now rewrite app_nil_r.
  - unfold add_card at 1. rewrite He. cbn [bind append].
    rewrite IH, <- app_assoc. reflexivity.
Qed.

Lemma build_view (year : Z) (i18n t g h : value) (ts gs hs c : string)
      (entries : list value) (cards : list node) :
  getPath i18n "site.title" = Ok t -> nullish t = false -> to_string t = Ok ts ->
  getPath i18n "site.tagline" = Ok g -> nullish g = false -> to_string g = Ok gs ->
  getPath i18n "sections.projects" = Ok h -> nullish h = false ->
  to_string h = Ok hs ->
  getPath i18n "footer.copyright" = Ok (VStr c) ->
  get_prop i18n "projects" = Ok (VArr entries) ->
  Forall2 (fun e c => make_card i18n e = Ok c) entries cards ->
  build year i18n
  = Ok (page_view ts gs hs cards (replace "{year}" (number_to_string year) c)).
Proof.
  intros Ht Htn Hts Hg Hgn Hgs Hh Hhn Hhs Hc Hp Hcards. unfold build.
  rewrite !el_classed by reflexivity. cbn [bind].
  rewrite Ht. cbn [bind].
  rewrite (el_labelled _ _ _ ts) by (reflexivity || assumption). cbn [bind].
  rewrite Hg. cbn [bind].
  rewrite (el_labelled _ _ _ gs) by (reflexivity || assumption). cbn [bind].
  rewrite Hh. cbn [bind].
  rewrite (el_labelled _ _ _ hs) by (reflexivity || assumption). cbn [bind].
  rewrite Hp. cbn [bind iterate].
  rewrite (reduce_add_card i18n entries cards) by assumption. cbn [bind].
  rewrite Hc. cbn [bind]. reflexivity.
Qed.

Lemma absent_false_inv (i18n : value) (path : string) :
  absent i18n path = false ->
  exists v, getPath i18n path = Ok v /\ nullish v = false.
Proof.
  unfold absent. destruct (getPath_total i18n path) as [v ->]. eauto.
Qed.

Lemma text_at_inv (i18n : value) (path : string) (s : string) :
  text_at i18n path = Some s ->
  exists v, getPath i18n path = Ok v /\ to_string v = Ok s.
Proof.
  unfold text_at. destruct (getPath i18n path) as [v|]; [|discriminate].
  destruct (to_string v) as [s'|] eqn:E; [|discriminate].
  intros [= <-]. eauto.
Qed.

Lemma present_text (i18n : value) (path : string) :
  absent i18n path = false ->
  match text_at i18n path with Some _ => true | None => false end = true ->
  exists v s, getPath i18n path = Ok v /\ nullish v = false
              /\ to_string v = Ok s /\ text_at i18n path = Some s.
Proof.
  intros Ha Ht. destruct (text_at i18n path) as [s|] eqn:E; [|discriminate].
  destruct (absent_false_inv _ _ Ha) as [v [Hv Hn]].
  destruct (text_at_inv _ _ _ E) as [v' [Hv' Hs]].
  rewrite Hv in Hv'. injection Hv' as <-. now exists v, s.
Qed.

(** What [render] does to a page with a mount point, on a document that
    passed validation and is [renderable]. *)
Lemma render_mounts (year : Z) (i18n : value) (pg : page) (root : mount) :
  validateI18n i18n = Ok tt ->
  renderable i18n = true ->
  appRoot pg = Some root ->
  exists entries cards ts gs hs visit c,
    get_prop i18n "projects" = Ok (VArr entries)
    /\ text_at i18n "site.title" = Some ts
    /\ text_at i18n "site.tagline" = Some gs
    /\ text_at i18n "sections.projects" = Some hs
    /\ text_at i18n "labels.visit" = Some visit
    /\ getPath i18n "footer.copyright" = Ok (VStr c)
    /\ Forall2 (card_for visit) entries cards
    /\ render year i18n pg
       = ({| title := ts;
             appRoot :=
               Some {| contents :=
                         [page_view ts gs hs cards
                            (replace "{year}" (number_to_string year) c)];
                       aria_busy := Some "false" |};
             console := console pg |}, Ok tt).
Proof.
  intros Hv Hr Hroot. apply validateI18n_accepts in Hv.
  destruct Hv as [Hpaths [entries [Hentries Hok]]].
  unfold requiredPaths in Hpaths.
  inversion Hpaths as [|? ? At Hp1]; subst; clear Hpaths.
  inversion Hp1 as [|? ? Ag Hp2]; subst; clear Hp1.
  inversion Hp2 as [|? ? Ah Hp3]; subst; clear Hp2.
  inversion Hp3 as [|? ? Al _]; subst; clear Hp3.
  unfold renderable in Hr. rewrite Hentries in Hr.
  apply andb_prop in Hr. destruct Hr as [Hr Hurls].
  apply andb_prop in Hr. destruct Hr as [Htexts Hcopy].
  cbn [forallb] in Htexts.
  apply andb_prop in Htexts. destruct Htexts as [Tt Htexts].
  apply andb_prop in Htexts. destruct Htexts as [Tg Htexts].
  apply andb_prop in Htexts. destruct Htexts as [Th Htexts].
  apply andb_prop in Htexts. destruct Htexts as [Tl _].
  destruct (present_text _ _ At Tt) as [t [ts [Ht [Htn [Hts Ett]]]]].
  destruct (present_text _ _ Ag Tg) as [g [gs [Hg [Hgn [Hgs Etg]]]]].
  destruct (present_text _ _ Ah Th) as [h [hs [Hh [Hhn [Hhs Eth]]]]].
  destruct (present_text _ _ Al Tl) as [vl [visit [Hl [Hln [Hls Etl]]]]].
  destruct (getPath i18n "footer.copyright") as [[| | | |c| |]|] eqn:Hc;
    try discriminate.
  destruct (make_cards i18n vl visit Hl Hln Hls entries Hok Hurls)
    as [cards [Hmake Hfor]].
  exists entries, cards, ts, gs, hs, visit, c.
  repeat (split; [assumption || reflexivity|]).
  unfold render, then_, lift, set_title, replaceChildren, set_busy.
  rewrite Ht, Hts.
  rewrite (build_view year i18n t g h ts gs hs c entries cards) by assumption.
  cbn [appRoot]. rewrite Hroot. reflexivity.
Qed.

Lemma card_for_shows (visit : string) (project : value) (card : node) :
  card_for visit project card -> shows project card.
Proof.
  intros [name [desc [u [href [Hn [Hnb [Hd [Hdb [_ [_ ->]]]]]]]]]].
  exists name, desc.
  eexists. split; [exact Hn|]. split; [exact Hd|].
  unfold card_view, text_view.
  now rewrite (all_space_nonempty _ Hnb), (all_space_nonempty _ Hdb).
Qed.

Lemma Forall2_nth_error_l {A B : Type} (R : A -> B -> Prop)
      (l : list A) (l' : list B) (i : nat) (x : A) :
  Forall2 R l l' -> nth_error l i = Some x ->
  exists y, nth_error l' i = Some y /\ R x y.
Proof.
  intros H. revert i. induction H as [|a b l l' Hab _ IH]; intros i Hi.
  - destruct i; discriminate.
  - destruct i as [|i]; simpl in *.
    + injection Hi as <-. eauto.
    + now apply IH.
Qed.

(** C2, as stated, fails for a validated document whose copyright line
    is not a string: [numeric_doc] passes validation and has one
    project, and [render] throws before it mounts anything, so the page
    shows no card and the mount point keeps its shell. *)
Lemma render_numeric_copyright :
  validateI18n numeric_doc = Ok tt
  /\ (exists entries, get_prop numeric_doc "projects" = Ok (VArr entries)
                      /\ List.length entries = 1)
  /\ snd (render 2025 numeric_doc shell) = Throw TypeError
  /\ appRoot (fst (render 2025 numeric_doc shell)) = appRoot shell.
Proof.
  split; [reflexivity|]. split; [|split; reflexivity].
  eexists. split; reflexivity.
Qed.

(** C2, amended.  For every document that passes validation, whose
    copyright line is a string and whose title, tagline, heading, visit
    label and urls convert to text, and a page that has the mount point:
    [render] succeeds and mounts one tree whose grid holds exactly as
    many cards as [projects] has entries, in the order of the entries,
    each card showing the text of the codename and of the description of
    its entry as text nodes. *)
Theorem render_cards (year : Z) (i18n : value) (pg : page) (root : mount)
        (entries : list value) :
  validateI18n i18n = Ok tt ->
  renderable i18n = true ->
  appRoot pg = Some root ->
  get_prop i18n "projects" = Ok (VArr entries) ->
  exists container cards,
    snd (render year i18n pg) = Ok tt
    /\ appRoot (fst (render year i18n pg))
       = Some {| contents := [container]; aria_busy := Some "false" |}
    /\ cards_of container = cards
    /\ List.length cards = List.length entries
    /\ Forall2 shows entries cards.
Proof.
  intros Hv Hr Hroot Hentries.
  destruct (render_mounts year i18n pg root Hv Hr Hroot)
    as [entries' [cards [ts [gs [hs [visit [c H]]]]]]].
  destruct H as [He [_ [_ [_ [_ [_ [Hcards Hrender]]]]]]].
  rewrite Hentries in He. injection He as <-.
  eexists. exists cards. rewrite Hrender. cbn [fst snd appRoot].
  split; [reflexivity|]. split; [reflexivity|]. split; [reflexivity|].
  split.
  - symmetry. eapply Forall2_length. exact Hcards.
  - eapply Forall2_impl; [|exact Hcards]. intros e k. apply card_for_shows.
Qed.

Lemma string_app_nil_r (s : string) : s ++ "" = s.
Proof. induction s as [|c r IH]; simpl; [reflexivity | now rewrite IH]. Qed.

Lemma link_view_text (visit href who : string) :
  textContent (link_view visit href who) = visit.
Proof. destruct visit; [reflexivity|]. simpl. now rewrite string_app_nil_r. Qed.

Lemma link_view_attributes (visit href who : string) :
  attribute "href" (link_view visit href who) = Some href
  /\ attribute "target" (link_view visit href who) = Some "_blank"
  /\ attribute "rel" (link_view visit href who) = Some "noopener noreferrer"
  /\ attribute "aria-label" (link_view visit href who)
     = Some (visit ++ ": " ++ who).
Proof. repeat split. Qed.

(** C8, as stated, fails for a [url] that is present and empty: the
    only entry of [empty_url_doc] has the empty text for [url], which is
    neither [null] nor [undefined], and its card has no link. *)
Lemma render_empty_url :
  validateI18n empty_url_doc = Ok tt
  /\ (exists project,
        get_prop empty_url_doc "projects" = Ok (VArr [project])
        /\ get_prop project "url" = Ok (VStr "")
        /\ nullish (VStr "") = false)
  /\ snd (render 2025 empty_url_doc shell) = Ok tt
  /\ (exists container card,
        appRoot (fst (render 2025 empty_url_doc shell))
        = Some {| contents := [container]; aria_busy := Some "false" |}
        /\ cards_of container = [card]
        /\ link_of card = None).
Proof.
  split; [reflexivity|]. split; [eexists; repeat split|].
  split; [reflexivity|]. eexists. eexists. repeat split.
Qed.

(** C8, amended.  On a validated, renderable document the card of a
    project entry has an action link exactly when the [url] of the
    entry is truthy: for a string, when it is not empty ([null],
    [undefined] and the empty text give no link).  The link shows the
    text of [labels.visit], its [href] is the text of the [url], the
    string itself when the [url] is a string, its [target] is [_blank]
    with [rel] [noopener noreferrer], and its [aria-label] is the visit
    label, a colon and a space, and the codename. *)
Theorem render_action_link (year : Z) (i18n : value) (pg : page) (root : mount)
        (entries : list value) (i : nat) (project u : value) :
  validateI18n i18n = Ok tt ->
  renderable i18n = true ->
  appRoot pg = Some root ->
  get_prop i18n "projects" = Ok (VArr entries) ->
  nth_error entries i = Some project ->
  get_prop project "url" = Ok u ->
  exists container card,
    appRoot (fst (render year i18n pg))
    = Some {| contents := [container]; aria_busy := Some "false" |}
    /\ nth_error (cards_of container) i = Some card
    /\ (truthy u = false -> link_of card = None)
    /\ (truthy u = true ->
        exists a visit name href,
          link_of card = Some a
          /\ text_at i18n "labels.visit" = Some visit
          /\ field_text project "codename" = Some name
          /\ to_string u = Ok href
          /\ textContent a = visit
          /\ attribute "href" a = Some href
          /\ attribute "target" a = Some "_blank"
          /\ attribute "rel" a = Some "noopener noreferrer"
          /\ attribute "aria-label" a = Some (visit ++ ": " ++ name))
    /\ (forall s, u = VStr s ->
          truthy u = negb (s =? "") /\ to_string u = Ok s).
Proof.
  intros Hv Hr Hroot Hentries Hnth Hu.
  destruct (render_mounts year i18n pg root Hv Hr Hroot)
    as [entries' [cards [ts [gs [hs [visit [c H]]]]]]].
  destruct H as [He [_ [_ [_ [Hvisit [_ [Hcards Hrender]]]]]]].
  rewrite Hentries in He. injection He as <-.
  destruct (Forall2_nth_error_l _ _ _ _ _ Hcards Hnth) as [card [Hcard Hfor]].
  destruct Hfor as [name [desc [u' [href [Hn [_ [_ [_ [Hu' [Hhref ->]]]]]]]]]].
  rewrite Hu in Hu'. injection Hu' as <-.
  eexists. eexists. rewrite Hrender. cbn [fst appRoot].
  split; [reflexivity|]. split; [exact Hcard|].
  split; [now intros ->|]. split.
  - intros ->. exists (link_view visit href name), visit, name, href.
    split; [reflexivity|]. repeat (split; [assumption|]).
    split; [apply link_view_text|]. apply link_view_attributes.
  - intros s ->. now split.
Qed.

(** ** Further properties of the validator and the renderer *)

(** X1.  When the six required dot-paths are present and [projects] is
    not an array, [validateI18n] throws the error that says
    [i18n.projects must be an array]. *)
Theorem validateI18n_invalid_shape (i18n projects : value) :
  Forall (fun p => absent i18n p = false) requiredPaths ->
  get_prop i18n "projects" = Ok projects ->
  (forall entries, projects <> VArr entries) ->
  validateI18n i18n = Throw InvalidShape
  /\ message InvalidShape = Some "i18n.projects must be an array".
Proof.
  intros Hp Hprojects Hshape. split; [|reflexivity].
  unfold validateI18n. apply required_paths_checked in Hp. rewrite Hp.
  simpl. rewrite Hprojects. simpl.
  destruct projects; try reflexivity. now destruct (Hshape elems).
Qed.

(** X2.  An entry of [projects] that is [null] is not reported as a
    missing project field: reading [project[key]] throws a [TypeError],
    once the entries before it have been found complete. *)
Theorem validateI18n_null_entry (i18n : value) (before after : list value) :
  Forall (fun p => absent i18n p = false) requiredPaths ->
  get_prop i18n "projects" = Ok (VArr (before ++ VNull :: after)%list) ->
  Forall (fun e => entry_ok e = true) before ->
  validateI18n i18n = Throw TypeError.
Proof.
  intros Hp Hprojects Hb.
  unfold validateI18n. apply required_paths_checked in Hp. rewrite Hp.
  simpl. rewrite Hprojects. simpl.
  apply for_entries_first_throw; [|reflexivity].
  eapply Forall_impl; [|exact Hb]. intros e He i. now apply check_project_ok.
Qed.

Lemma footer_text (title tagline heading copyright : string) (cards : list node) :
  textContent (footer_of (page_view title tagline heading cards copyright))
  = copyright.
Proof.
  destruct copyright; [reflexivity|]. simpl. now rewrite !string_app_nil_r.
Qed.

(** X3.  A successful [render] sets the title of the document to the
    text of [site.title], replaces the children of the mount point by
    one tree, marks the mount point as not busy, and writes in the
    footer the copyright line with the first [{year}] replaced by the
    current year. *)
Theorem render_success (year : Z) (i18n : value) (pg : page) (root : mount)
        (copyright : string) :
  validateI18n i18n = Ok tt ->
  renderable i18n = true ->
  appRoot pg = Some root ->
  getPath i18n "footer.copyright" = Ok (VStr copyright) ->
  exists container,
    snd (render year i18n pg) = Ok tt
    /\ appRoot (fst (render year i18n pg))
       = Some {| contents := [container]; aria_busy := Some "false" |}
    /\ text_at i18n "site.title" = Some (title (fst (render year i18n pg)))
    /\ console (fst (render year i18n pg)) = console pg
    /\ textContent (footer_of container)
       = replace "{year}" (number_to_string year) copyright.
Proof.
  intros Hv Hr Hroot Hc.
  destruct (render_mounts year i18n pg root Hv Hr Hroot)
    as [entries [cards [ts [gs [hs [visit [c H]]]]]]].
  destruct H as [_ [Ht [_ [_ [_ [Hc' [_ Hrender]]]]]]].
  rewrite Hc in Hc'. injection Hc' as <-.
  eexists. rewrite Hrender. cbn [fst snd appRoot title console].
  split; [reflexivity|]. split; [reflexivity|]. split; [exact Ht|].
  split; [reflexivity|]. apply footer_text.
Qed.

Ltac bind_ok :=
  repeat lazymatch goal with
    | |- bind ?m _ = Ok _ -> _ =>
        let E := fresh "E" in
        destruct m eqn:E; cbn [bind]; [|discriminate]
    end.

Lemma build_copyright (year : Z) (i18n : value) (container : node) :
  build year i18n = Ok container ->
  exists tmpl, getPath i18n "footer.copyright" = Ok (VStr tmpl).
Proof.
  unfold build. bind_ok.
  match goal with
  | H : getPath i18n "footer.copyright" = Ok ?v |- _ => destruct v
  end; cbn [bind]; try discriminate.
  intros _. eauto.
Qed.

(** X4.  Validation does not protect the renderer from a copyright line
    that is not a string: whatever else the document holds, [render]
    then throws, and the mount point keeps what it had. *)
Theorem render_needs_string_copyright
        (year : Z) (i18n : value) (pg : page) (v : value) :
  getPath i18n "footer.copyright" = Ok v ->
  (forall tmpl, v <> VStr tmpl) ->
  exists e,
    snd (render year i18n pg) = Throw e
    /\ appRoot (fst (render year i18n pg)) = appRoot pg.
Proof.
  intros Hv Hshape.
  destruct (render year i18n pg) as [pg' [[]|e]] eqn:E.
  - exfalso. revert E. unfold render, then_, lift, set_title.
    destruct (getPath i18n "site.title") as [t|]; [|discriminate].
    destruct (to_string t) as [s|]; [|discriminate].
    destruct (build year i18n) as [container|] eqn:B; [|discriminate].
    apply build_copyright in B. destruct B as [tmpl B].
    rewrite Hv in B. injection B as ->. now destruct (Hshape tmpl).
  - exists e. split; [reflexivity|]. now apply render_failure in E.
Qed.

(** ** The statements at concrete inputs *)

(** [title_only_doc] lacks [site.tagline] first; its [projects] is not
    even an array, and the missing key is what is reported. *)
Lemma validateI18n_missing_key_witness :
  (exists p, In p requiredPaths /\ absent title_only_doc p = true)
  /\ exists before path after,
       requiredPaths = (before ++ path :: after)%list
       /\ Forall (fun p => absent title_only_doc p = false) before
       /\ absent title_only_doc path = true
       /\ validateI18n title_only_doc = Throw (MissingKey path)
       /\ message (MissingKey path) = Some ("Missing i18n key: " ++ path).
Proof.
  assert (H : exists p, In p requiredPaths /\ absent title_only_doc p = true).
  { exists "site.tagline". split; [right; left; reflexivity | reflexivity]. }
  split; [exact H|]. exact (validateI18n_missing_key title_only_doc H).
Defined.


(** [numeric_doc] has a number for its title, for its copyright line and
    for a description, and is accepted. *)
Lemma validateI18n_presence_only_witness :
  getPath numeric_doc "site.title" = Ok (VNum 42)
  /\ getPath numeric_doc "footer.copyright" = Ok (VNum 2024)
  /\ validateI18n numeric_doc = Ok tt.
Proof.
  split; [reflexivity|]. split; [reflexivity|].
  apply (validateI18n_presence_only numeric_doc
           [VObj [("codename", VStr "Orbit"); ("description", VNum 7)]]).
  - repeat constructor.
  - reflexivity.
  - repeat constructor.
Defined.

(** [?x=%zz&lang=pt-BR]: the other parameter does not matter. *)
Lemma getLanguage_lang_param_witness :
  getLanguage (Params [("x", "%zz"); ("lang", "pt-BR")]) VUndefined
  = Ok (VStr "pt-BR").
Proof.
  refine (proj1 (getLanguage_lang_param [("x", "%zz"); ("lang", "pt-BR")]
                   VUndefined "pt-BR" eq_refl _)).
  discriminate.
Defined.

(** No [lang] and a configured default; a blank [lang] and none. *)
Lemma getLanguage_default_witness :
  getLanguage (Params [("q", "1")]) (VObj [("defaultLanguage", VStr "de")])
  = Ok (VStr "de")
  /\ getLanguage (Params [("lang", "  ")]) VUndefined = Ok (VStr "en")
  /\ getLanguage BadQuery (VObj [("i18nPath", VStr "locales")]) = Ok (VStr "en").
Proof.
  split; [|split].
  - exact (proj2 (proj2 (getLanguage_default (Params [("q", "1")])
                           (VObj [("defaultLanguage", VStr "de")])) eq_refl)
             (VStr "de") eq_refl eq_refl).
  - exact (proj1 (proj2 (getLanguage_default (Params [("lang", "  ")]) VUndefined)
                    eq_refl) eq_refl).
  - exact (proj2 (proj2 (getLanguage_default BadQuery
                           (VObj [("i18nPath", VStr "locales")])) eq_refl)
             VUndefined eq_refl eq_refl).
Defined.

(** Scenario C and scenario D of the specification, at the loader. *)
Lemma loadI18n_failures_witness :
  loadI18n VUndefined (fetch french_missing) (VStr "fr")
  = Throw (ResourceUnavailable "i18n/fr.json" 404)
  /\ loadI18n (VObj [("i18nPath", VStr "locales")])
       (fun _ => Responded {| ok := true; status := 200; body := None |})
       (VStr "pt/BR")
     = Throw (MalformedResource "pt/BR").
Proof.
  split.
  - refine (proj1 (proj2 (proj2 (proj2
      (loadI18n_failures VUndefined (fetch french_missing) (VStr "fr")
         (VStr "i18n") "i18n" "fr"
         {| ok := false; status := 404; body := None |}
         eq_refl eq_refl eq_refl eq_refl)))) eq_refl).
  - refine (proj1 (proj2 (proj2 (proj2 (proj2
      (loadI18n_failures (VObj [("i18nPath", VStr "locales")])
         (fun _ => Responded {| ok := true; status := 200; body := None |})
         (VStr "pt/BR") (VStr "locales") "locales" "pt/BR"
         {| ok := true; status := 200; body := None |}
         eq_refl eq_refl eq_refl eq_refl))))) eq_refl eq_refl).
Defined.


(** [orbit_doc] has two projects and gets two cards. *)
Lemma render_cards_witness :
  exists container cards,
    snd (render 2025 orbit_doc shell) = Ok tt
    /\ appRoot (fst (render 2025 orbit_doc shell))
       = Some {| contents := [container]; aria_busy := Some "false" |}
    /\ cards_of container = cards
    /\ List.length cards = 2
    /\ Forall2 shows
         [ VObj [ ("codename", VStr "Orbit"); ("description", VStr "A tool");
                  ("url", VStr "https://x.test") ];
           VObj [ ("codename", VStr "Nova"); ("description", VStr "A star") ] ]
         cards.
Proof.
  exact (render_cards 2025 orbit_doc shell
           {| contents := [Text "Loading"]; aria_busy := Some "true" |}
           _ eq_refl eq_refl eq_refl eq_refl).
Defined.

(** Scenario B of the specification: the link of the card of Orbit. *)
Lemma render_action_link_witness :
  exists container card,
    appRoot (fst (render 2025 orbit_doc shell))
    = Some {| contents := [container]; aria_busy := Some "false" |}
    /\ nth_error (cards_of container) 0 = Some card
    /\ exists a,
         link_of card = Some a
         /\ textContent a = "Visit"
         /\ attribute "href" a = Some "https://x.test"
         /\ attribute "aria-label" a = Some "Visit: Orbit".
Proof.
  destruct (render_action_link 2025 orbit_doc shell
              {| contents := [Text "Loading"]; aria_busy := Some "true" |}
              [ VObj [ ("codename", VStr "Orbit"); ("description", VStr "A tool");
                       ("url", VStr "https://x.test") ];
                VObj [ ("codename", VStr "Nova"); ("description", VStr "A star") ] ]
              0
              (VObj [ ("codename", VStr "Orbit"); ("description", VStr "A tool");
                      ("url", VStr "https://x.test") ])
              (VStr "https://x.test")
              eq_refl eq_refl eq_refl eq_refl eq_refl eq_refl)
    as [container [card [Hroot [Hcard [_ [Hlink _]]]]]].
  destruct (Hlink eq_refl)
    as [a [visit [name [href [Ha [Hv [Hn [Hh [Ht [Hhref [_ [_ Haria]]]]]]]]]]]].
  injection Hv as <-. injection Hn as <-. injection Hh as <-.
  exists container, card. split; [exact Hroot|]. split; [exact Hcard|].
  exists a. repeat split; assumption.
Defined.

(** A [projects] that is a text is no array. *)
Lemma validateI18n_invalid_shape_witness :
  validateI18n no_array_doc = Throw InvalidShape.
Proof.
  refine (proj1 (validateI18n_invalid_shape no_array_doc (VStr "none")
                   _ eq_refl _)).
  - repeat constructor.
  - discriminate.
Defined.

(** The second entry of [null_entry_doc] is [null]. *)
Lemma validateI18n_null_entry_witness :
  validateI18n null_entry_doc = Throw TypeError.
Proof.
  apply (validateI18n_null_entry null_entry_doc
           [VObj [("codename", VStr "Orbit"); ("description", VStr "A tool")]] []).
  - repeat constructor.
  - reflexivity.
  - repeat constructor.
Defined.

(** Scenario A of the specification, with only the first [{year}] replaced. *)
Lemma render_success_witness :
  replace "{year}" (number_to_string 2025) "(c) {year} Acme {year}"
  = "(c) 2025 Acme {year}"
  /\ exists container,
       snd (render 2025 orbit_doc shell) = Ok tt
       /\ appRoot (fst (render 2025 orbit_doc shell))
          = Some {| contents := [container]; aria_busy := Some "false" |}
       /\ text_at orbit_doc "site.title"
          = Some (title (fst (render 2025 orbit_doc shell)))
       /\ console (fst (render 2025 orbit_doc shell)) = console shell
       /\ textContent (footer_of container) = "(c) 2025 Acme".
Proof.
  split; [reflexivity|].
  exact (render_success 2025 orbit_doc shell
           {| contents := [Text "Loading"]; aria_busy := Some "true" |}
           "(c) {year} Acme" eq_refl eq_refl eq_refl eq_refl).
Defined.


(** The copyright line of [numeric_doc] is the number 2024. *)
Lemma render_needs_string_copyright_witness :
  validateI18n numeric_doc = Ok tt
  /\ exists e,
       snd (render 2025 numeric_doc shell) = Throw e
       /\ appRoot (fst (render 2025 numeric_doc shell)) = appRoot shell.
Proof.
  split; [reflexivity|].
  refine (render_needs_string_copyright 2025 numeric_doc shell (VNum 2024)
            eq_refl _).
  discriminate.
Defined.

(** ** What each stage can throw *)

Lemma only_ok {A : Type} (a : A) : only_TypeError (Ok a).
Proof. intros e H. discriminate. Qed.

Lemma only_throw {A : Type} : only_TypeError (@Throw A TypeError).
Proof. intros e H. now injection H as <-. Qed.

Lemma only_bind {A B : Type} (m : result A) (k : A -> result B) :
  only_TypeError m -> (forall a, only_TypeError (k a)) ->
  only_TypeError (bind m k).
Proof.
  intros Hm Hk e. destruct m as [a|e']; simpl.
  - apply Hk.
  - intros [= <-]. now apply Hm.
Qed.

Lemma only_if {A : Type} (b : bool) (x y : result A) :
  only_TypeError x -> only_TypeError y -> only_TypeError (if b then x else y).
Proof. now destruct b. Qed.

Lemma only_reduce {A B : Type} (f : A -> B -> result A) (l : list B) :
  (forall a b, only_TypeError (f a b)) ->
  forall init, only_TypeError (reduce f l init).
Proof.
  intros Hf. induction l as [|b l IH]; intros init; simpl.
  - apply only_ok.
  - apply only_bind; [apply Hf | exact IH].
Qed.

Lemma only_to_string : forall v, only_TypeError (to_string v).
Proof.
  fix IH 1. intros v. destruct v as [| |b|n|s|elems|props]; simpl;
    try apply only_ok.
  - destruct b; apply only_ok.
  - induction elems as [|x rest IHl]; [apply only_ok|].
    apply only_bind.
    + apply only_if; [apply only_ok | apply IH].
    + intros s. destruct rest as [|y rest']; [apply only_ok|].
      apply only_bind; [exact IHl | intros; apply only_ok].
  - destruct (has_key "toString" props); [apply only_throw | apply only_ok].
Qed.

Lemma only_get_prop (v : value) (key : string) : only_TypeError (get_prop v key).
Proof.
  destruct v; simpl; try apply only_ok; try apply only_throw.
  - destruct (key =? "length"); [apply only_ok|].
    destruct (index_of_key key); apply only_ok.
  - destruct (key =? "length"); [apply only_ok|].
    destruct (index_of_key key); apply only_ok.
Qed.

Lemma only_getPath (object : value) (dotPath : string) :
  only_TypeError (getPath object dotPath).
Proof. destruct (getPath_total object dotPath) as [v ->]. apply only_ok. Qed.

Lemma only_el (tag : string) (o : options) : only_TypeError (el tag o).
Proof.
  unfold el. apply only_bind.
  - apply only_if; [apply only_ok|].
    apply only_bind; [apply only_to_string | intros; apply only_ok].
  - intros node. apply only_reduce. intros a b.
    apply only_if; [apply only_ok|].
    apply only_bind; [apply only_to_string | intros; apply only_ok].
Qed.

Create HintDb throws.

#[local] Hint Resolve only_ok only_throw only_to_string only_get_prop
  only_getPath only_el : throws.

Ltac only_typeerror :=
  repeat first
    [ solve [auto with throws]
    | apply only_bind; [|intros ?]
    | apply only_if ].

Lemma only_make_card (i18n project : value) :
  only_TypeError (make_card i18n project).
Proof. unfold make_card. only_typeerror. Qed.

Lemma only_iterate (x : value) : only_TypeError (iterate x).
Proof. destruct x; simpl; auto with throws. Qed.

Lemma only_cards (i18n : value) (projects : list value) (grid : node) :
  only_TypeError (reduce (add_card i18n) projects grid).
Proof.
  apply only_reduce. intros g project. unfold add_card.
  apply only_bind; [apply only_make_card | intros; apply only_ok].
Qed.

#[local] Hint Resolve only_iterate only_cards : throws.

Lemma only_build (year : Z) (i18n : value) : only_TypeError (build year i18n).
Proof.
  unfold build. only_typeerror.
  lazymatch goal with
  | |- only_TypeError (match ?v with _ => _ end) => destruct v
  end; auto with throws.
Qed.

Lemma render_throws (year : Z) (i18n : value) (pg : page) :
  only_TypeError (snd (render year i18n pg)).
Proof.
  unfold render, then_, lift, set_title, replaceChildren, set_busy.
  destruct (getPath i18n "site.title") as [t|e0] eqn:Et;
    [|intros e [= <-]; exact (only_getPath _ _ _ Et)].
  destruct (to_string t) as [s|e0] eqn:Es;
    [|intros e [= <-]; exact (only_to_string _ _ Es)].
  destruct (build year i18n) as [container|e0] eqn:Eb;
    [|intros e [= <-]; exact (only_build _ _ _ Eb)].
  simpl. destruct (appRoot pg) as [root|]; simpl;
    [apply only_ok | apply only_throw].
Qed.


(** X5.  [render] throws nothing but the [TypeError]s of the runtime.
    When it throws, the mount point and the console are as before, and
    the title of the document is either untouched or already the text of
    [site.title]. *)
Theorem render_only_TypeError (year : Z) (i18n : value) (pg : page) (e : error) :
  snd (render year i18n pg) = Throw e ->
  e = TypeError
  /\ appRoot (fst (render year i18n pg)) = appRoot pg
  /\ console (fst (render year i18n pg)) = console pg
  /\ (title (fst (render year i18n pg)) = title pg
      \/ text_at i18n "site.title" = Some (title (fst (render year i18n pg)))).
Proof.
  intros H. split; [exact (render_throws year i18n pg e H)|].
  destruct (render year i18n pg) as [pg' r] eqn:E. simpl in H. subst r.
  destruct (render_failure year i18n pg pg' e E) as [Hroot Hconsole].
  cbn [fst]. split; [exact Hroot|]. split; [exact Hconsole|].
  revert E. unfold render, then_, lift, set_title, text_at.
  destruct (getPath i18n "site.title") as [t|]; [|intros [= <- _]; now left].
  destruct (to_string t) as [s|]; [|intros [= <- _]; now left].
  destruct (build year i18n) as [container|]; [|intros [= <- _]; now right].
  simpl. unfold replaceChildren, set_busy. simpl.
  destruct (appRoot pg); simpl; [discriminate|].
  intros [= <- _]. now right.
Qed.

Lemma for_of_throw_inv {A : Type} (body : A -> result unit) (l : list A) (e : error) :
  for_of body l = Throw e -> exists x, In x l /\ body x = Throw e.
Proof.
  induction l as [|x l IH]; simpl; [discriminate|].
  destruct (body x) as [[]|e'] eqn:E; simpl.
  - intros H. destruct (IH H) as [y [Hy Hb]]. exists y. split; [now right | exact Hb].
  - intros [= <-]. exists x. split; [now left | exact E].
Qed.

Lemma for_entries_throw_inv {A : Type} (body : nat -> A -> result unit)
      (l : list A) (e : error) :
  forall index,
    for_entries body index l = Throw e ->
    exists n x, nth_error l n = Some x /\ body (index + n) x = Throw e.
Proof.
  induction l as [|x l IH]; intros index; simpl; [discriminate|].
  destruct (body index x) as [[]|e'] eqn:E; simpl.
  - intros H. destruct (IH _ H) as [n [y [Hn Hb]]].
    exists (S n), y. split; [exact Hn|]. now rewrite <- Nat.add_succ_comm.
  - intros [= <-]. exists 0, x. split; [reflexivity|]. now rewrite Nat.add_0_r.
Qed.

Lemma check_field_throw (index : nat) (project : value) (key : string) (e : error) :
  check_field index project key = Throw e ->
  e = TypeError
  \/ (e = MissingProjectField index key /\ field_blank project key = true).
Proof.
  unfold check_field, field_blank.
  destruct (get_prop project key) as [v|e'] eqn:Eg; simpl.
  - destruct (nullish v); simpl; [intros [= <-]; now right|].
    destruct (to_string v) as [s|e'] eqn:Es; simpl.
    + rewrite trim_eqb_all_space.
      destruct (all_space s); [intros [= <-]; now right | discriminate].
    + intros [= <-]. left. exact (only_to_string _ _ Es).
  - intros [= <-]. left. exact (only_get_prop _ _ _ Eg).
Qed.

(** X6.  Every error of [validateI18n] is one of four: a missing key,
    naming one of the six required paths, which is absent; the shape
    error, when [projects] is no array; a missing project field, naming
    the index of an entry of [projects] and one of [codename] and
    [description], which is blank in that entry; or a [TypeError] of the
    runtime.  The validator throws none of the errors of the loader. *)
Theorem validateI18n_errors (i18n : value) (e : error) :
  validateI18n i18n = Throw e ->
  (exists path, In path requiredPaths /\ absent i18n path = true
                /\ e = MissingKey path)
  \/ (e = InvalidShape
      /\ exists projects, get_prop i18n "projects" = Ok projects
                          /\ forall entries, projects <> VArr entries)
  \/ (exists entries index project key,
        get_prop i18n "projects" = Ok (VArr entries)
        /\ nth_error entries index = Some project
        /\ (key = "codename" \/ key = "description")
        /\ field_blank project key = true
        /\ e = MissingProjectField index key)
  \/ e = TypeError.
Proof.
  unfold validateI18n.
  destruct (for_of (check_path i18n) requiredPaths) as [[]|e'] eqn:Ep; simpl.
  - destruct (get_prop i18n "projects") as [projects|e'] eqn:Eg; simpl.
    + destruct projects as [| |b|n|s|entries|props];
        try (intros [= <-]; right; left; split; [reflexivity|];
             eexists; split; [reflexivity | discriminate]).
      intros H. apply for_entries_throw_inv in H.
      destruct H as [index [project [Hn H]]]. simpl in H.
      apply for_of_throw_inv in H. destruct H as [key [Hk H]].
      apply check_field_throw in H. destruct H as [->|[-> Hb]].
      * now repeat right.
      * right. right. left. exists entries, index, project, key.
        repeat split; try assumption.
        destruct Hk as [<-|[<-|[]]]; [now left | now right].
    + intros [= <-]. repeat right. exact (only_get_prop _ _ _ Eg).
  - intros [= <-]. apply for_of_throw_inv in Ep. destruct Ep as [path [Hin H]].
    rewrite check_path_absent in H.
    destruct (absent i18n path) eqn:Ea; [|discriminate].
    injection H as <-. left. now exists path.
Qed.

Lemma get_prop_field (v r : value) (key : string) :
  get_prop v key = Ok r -> nullish r = false ->
  (key =? "length") = false -> index_of_key key = None ->
  exists props, v = VObj props /\ lookup key props = r.
Proof.
  intros H Hn Hl Hi.
  destruct v; simpl in H; try discriminate;
    try (injection H as <-; discriminate).
  - rewrite Hl, Hi in H. injection H as <-. discriminate.
  - rewrite Hl, Hi in H. injection H as <-. discriminate.
  - injection H as <-. eauto.
Qed.

Lemma entry_ok_inv (project : value) :
  entry_ok project = true ->
  exists props name desc,
    project = VObj props
    /\ field_text project "codename" = Some name /\ all_space name = false
    /\ field_text project "description" = Some desc /\ all_space desc = false.
Proof.
  unfold entry_ok. intros H. apply andb_prop in H. destruct H as [Hc Hd].
  apply field_ok_inv in Hc. destruct Hc as [cv [name [Hc [Hcn [Hcs Hcb]]]]].
  apply field_ok_inv in Hd. destruct Hd as [dv [desc [Hd [Hdn [Hds Hdb]]]]].
  destruct (get_prop_field project cv "codename" Hc Hcn eq_refl eq_refl)
    as [props [-> _]].
  exists props, name, desc. unfold field_text. rewrite Hc, Hcs, Hd, Hds.
  now repeat split.
Qed.

(** X7.  What [validateI18n] accepts is what it is meant to let through:
    an accepted document is an object in which each of the six required
    dot-paths resolves to a value other than [null] and [undefined],
    whose [projects] is an array, and each entry of it is an object
    whose [codename] and [description] have a text that is not blank. *)
Theorem validateI18n_sound (i18n : value) :
  validateI18n i18n = Ok tt ->
  (exists props, i18n = VObj props)
  /\ (forall path, In path requiredPaths ->
        exists v, getPath i18n path = Ok v /\ nullish v = false)
  /\ exists entries,
       get_prop i18n "projects" = Ok (VArr entries)
       /\ Forall (fun project =>
                    exists props name desc,
                      project = VObj props
                      /\ field_text project "codename" = Some name
                      /\ all_space name = false
                      /\ field_text project "description" = Some desc
                      /\ all_space desc = false) entries.
Proof.
  intros H. apply validateI18n_accepts in H.
  destruct H as [Hp [entries [He Hok]]]. split; [|split].
  - destruct (get_prop_field i18n (VArr entries) "projects" He eq_refl
                eq_refl eq_refl) as [props [-> _]]. eauto.
  - intros path Hin. apply absent_false_inv.
    rewrite Forall_forall in Hp. now apply Hp.
  - exists entries. split; [exact He|].
    eapply Forall_impl; [|exact Hok]. intros project. apply entry_ok_inv.
Qed.

(** ** The whole run *)

Lemma sequence_render (w : world) (pg : page) (language i18n : value) :
  getLanguage (search w) (config w) = Ok language ->
  loadI18n (config w) (fetch w) language = Ok i18n ->
  validateI18n i18n = Ok tt ->
  sequence w pg = render (year w) i18n pg.
Proof.
  intros Hl Hload Hv. unfold sequence, then_, lift. now rewrite Hl, Hload, Hv.
Qed.

(** X8.  A run whose resource loads, passes validation and can be
    displayed ends with the page rendered: the mount point holds one
    tree with a card per project, it is marked as not busy, the title of
    the document is the text of [site.title], and nothing is written to
    the console. *)
Theorem bootstrap_succeeds (w : world) (pg : page) (root : mount)
        (language i18n : value) (entries : list value) :
  getLanguage (search w) (config w) = Ok language ->
  loadI18n (config w) (fetch w) language = Ok i18n ->
  validateI18n i18n = Ok tt ->
  renderable i18n = true ->
  get_prop i18n "projects" = Ok (VArr entries) ->
  appRoot pg = Some root ->
  exists container,
    appRoot (bootstrap w pg)
    = Some {| contents := [container]; aria_busy := Some "false" |}
    /\ List.length (cards_of container) = List.length entries
    /\ text_at i18n "site.title" = Some (title (bootstrap w pg))
    /\ console (bootstrap w pg) = console pg.
Proof.
  intros Hl Hload Hv Hr He Hroot. unfold bootstrap.
  rewrite (sequence_render w pg language i18n Hl Hload Hv).
  destruct (render_mounts (year w) i18n pg root Hv Hr Hroot)
    as [entries' [cards [ts [gs [hs [visit [c H]]]]]]].
  destruct H as [He' [Ht [_ [_ [_ [_ [Hcards Hrender]]]]]]].
  rewrite He in He'. injection He' as <-.
  rewrite Hrender. eexists. cbn [appRoot title console].
  split; [reflexivity|]. split; [|split; [exact Ht | reflexivity]].
  cbn. symmetry. eapply Forall2_length. exact Hcards.
Qed.

Lemma render_again (year : Z) (i18n : value) (pg pg' : page) :
  render year i18n pg = (pg', Ok tt) ->
  render year i18n pg' = (pg', Ok tt).
Proof.
  unfold render, then_, lift, set_title, replaceChildren, set_busy.
  destruct (getPath i18n "site.title") as [t|]; [|discriminate].
  destruct (to_string t) as [s|]; [|discriminate].
  destruct (build year i18n) as [container|]; [|discriminate].
  simpl. destruct (appRoot pg) as [root|]; simpl; [|discriminate].
  intros [= <-]. reflexivity.
Qed.

(** X9.  Rendering replaces, it does not add: a second successful run on
    the page the first one left changes nothing, so the mount point
    never holds more than the one tree. *)
Theorem bootstrap_idempotent (w : world) (pg : page) :
  snd (sequence w pg) = Ok tt ->
  bootstrap w (bootstrap w pg) = bootstrap w pg
  /\ exists container,
       option_map contents (appRoot (bootstrap w pg)) = Some [container].
Proof.
  intros H. unfold bootstrap.
  destruct (sequence w pg) as [pg' [[]|e]] eqn:E; simpl in H; [|discriminate].
  assert (E' : sequence w pg' = (pg', Ok tt)).
  { revert E. unfold sequence, then_, lift.
    destruct (getLanguage (search w) (config w)) as [language|]; [|discriminate].
    destruct (loadI18n (config w) (fetch w) language) as [i18n|]; [|discriminate].
    destruct (validateI18n i18n) as [[]|]; [|discriminate].
    apply render_again. }
  rewrite E'. split; [reflexivity|].
  revert E. unfold sequence, then_, lift.
  destruct (getLanguage (search w) (config w)) as [language|]; [|discriminate].
  destruct (loadI18n (config w) (fetch w) language) as [i18n|]; [|discriminate].
  destruct (validateI18n i18n) as [[]|]; [|discriminate].
  unfold render, then_, lift, set_title, replaceChildren, set_busy.
  destruct (getPath i18n "site.title") as [t|]; [|discriminate].
  destruct (to_string t) as [s|]; [|discriminate].
  destruct (build (year w) i18n) as [container|]; [|discriminate].
  simpl. destruct (appRoot pg) as [root|]; simpl; [|discriminate].
  intros [= <-]. simpl. eauto.
Qed.

(** ** The element builder *)

Lemma attribute_put (tag name k v : string) (a : list (string * string))
      (kids : list node) :
  attribute name (Element tag (put k v a) kids)
  = if k =? name then Some v else attribute name (Element tag a kids).
Proof.
  unfold attribute. induction a as [|[k0 v0] rest IH]; simpl.
  - now destruct (k =? name).
  - destruct (k0 =? k) eqn:E0; simpl.
    + apply String.eqb_eq in E0. subst k0. now destruct (k =? name).
    + destruct (k0 =? name) eqn:E1; simpl.
      * apply String.eqb_eq in E1. subst k0.
        rewrite String.eqb_sym in E0. now rewrite E0.
      * exact IH.
Qed.

Lemma el_attrs_loop (name : string) (l : list (string * value)) :
  forall (tag : string) (a : list (string * string)) (kids : list node)
         (n : node) (found : option string),
    attribute name (Element tag a kids) = found ->
    reduce (fun node entry =>
              if nullish (snd entry) then Ok node
              else s <- to_string (snd entry) ;;
                   Ok (setAttribute (fst entry) s node))
           l (Element tag a kids) = Ok n ->
    (exists a', n = Element tag a' kids)
    /\ attribute name n
       = fold_left
           (fun found entry =>
              if (fst entry =? name) && negb (nullish (snd entry))
              then match to_string (snd entry) with
                   | Ok s => Some s
                   | Throw _ => found
                   end
              else found) l found.
Proof.
  induction l as [|[k v] l IH]; intros tag a kids n found Hf; simpl.
  - intros [= <-]. split; [eauto | exact Hf].
  - destruct (nullish v) eqn:En; simpl.
    + rewrite andb_false_r. now apply IH.
    + destruct (to_string v) as [s|e] eqn:Es; simpl; [|discriminate].
      rewrite andb_true_r. apply IH.
      rewrite attribute_put, Hf. reflexivity.
Qed.

(** X10.  [el] inserts its text as text: the element it returns has the
    tag asked for and holds no child element, only one text node with
    the text of [options.text], and nothing at all when that text is
    empty or [options.text] is [null] or [undefined]. *)
Theorem el_text (tag : string) (o : options) (n : node) :
  el tag o = Ok n ->
  exists attributes s,
    n = Element tag attributes (if s =? "" then [] else [Text s])
    /\ (if nullish (text o) then s = "" else to_string (text o) = Ok s)
    /\ textContent n = s.
Proof.
  unfold el.
  set (start := match className o with
                | Some c => if c =? "" then Element tag [] []
                            else setAttribute "class" c (Element tag [] [])
                | None => Element tag [] []
                end).
  assert (Hs : exists a, start = Element tag a []).
  { unfold start. destruct (className o) as [c|]; [|eauto].
    destruct (c =? ""); simpl; eauto. }
  destruct Hs as [a ->].
  destruct (nullish (text o)) eqn:En; simpl.
  - intros H.
    destruct (el_attrs_loop "class" _ _ _ _ _ _ eq_refl H) as [[a' ->] _].
    exists a', "". now repeat split.
  - destruct (to_string (text o)) as [s|e]; simpl; [|discriminate].
    intros H.
    destruct (el_attrs_loop "class" _ _ _ _ _ _ eq_refl H) as [[a' ->] _].
    exists a', s. repeat split.
    destruct s; [reflexivity|]. simpl. now rewrite string_app_nil_r.
Qed.

Lemma fold_other_names (name : string) (l : list (string * value))
      (found : option string) :
  ~ In name (map fst l) ->
  fold_left
    (fun found entry =>
       if (fst entry =? name) && negb (nullish (snd entry))
       then match to_string (snd entry) with
            | Ok s => Some s
            | Throw _ => found
            end
       else found) l found = found.
Proof.
  revert found. induction l as [|[k v] l IH]; intros found Hn; simpl;
    [reflexivity|].
  simpl in Hn. destruct (k =? name) eqn:E.
  - apply String.eqb_eq in E. tauto.
  - simpl. apply IH. tauto.
Qed.

Lemma fold_distinct_names (name : string) (l : list (string * value))
      (found : option string) :
  NoDup (map fst l) ->
  fold_left
    (fun found entry =>
       if (fst entry =? name) && negb (nullish (snd entry))
       then match to_string (snd entry) with
            | Ok s => Some s
            | Throw _ => found
            end
       else found) l found
  = match find (fun entry => fst entry =? name) l with
    | Some entry =>
        if nullish (snd entry) then found
        else match to_string (snd entry) with
             | Ok s => Some s
             | Throw _ => found
             end
    | None => found
    end.
Proof.
  revert found. induction l as [|[k v] l IH]; intros found Hd; simpl;
    [reflexivity|].
  simpl in Hd. inversion Hd as [|? ? Hk Hl]; subst.
  destruct (k =? name) eqn:E; simpl.
  - apply String.eqb_eq in E. subst k.
    rewrite fold_other_names by exact Hk.
    destruct (nullish v); simpl; [reflexivity|].
    now destruct (to_string v).
  - now apply IH.
Qed.

(** X11.  The attributes of the element [el] returns, for a plain tag,
    plain attribute names that are all distinct (as the entries of an
    object are) and a plain name asked for: the text of the entry of
    that name when its value is neither [null] nor [undefined], such
    entries being left out; the class name, when it is not empty, is the
    [class] attribute unless an entry named [class] replaces it. *)
Theorem el_attributes (tag : string) (o : options) (n : node) (name : string) :
  plain_name tag = true ->
  forallb plain_name (map fst (attrs o)) = true ->
  NoDup (map fst (attrs o)) ->
  plain_name name = true ->
  el tag o = Ok n ->
  attribute name n = expected_attribute o name.
Proof.
  intros _ _ Hd _. unfold el, expected_attribute.
  set (start := match className o with
                | Some c => if c =? "" then Element tag [] []
                            else setAttribute "class" c (Element tag [] [])
                | None => Element tag [] []
                end).
  set (found := match className o with
                | Some c => if (c =? "") || negb (name =? "class") then None
                            else Some c
                | None => None
                end).
  cbv zeta. rewrite <- (fold_distinct_names name (attrs o) found Hd).
  assert (Hs : exists a, start = Element tag a []
                         /\ forall kids, attribute name (Element tag a kids) = found).
  { unfold start, found. destruct (className o) as [c|]; [|exists []; now split].
    destruct (c =? ""); simpl; [exists []; now split|].
    exists [("class", c)]. split; [reflexivity|]. intros kids.
    cbn [attribute find fst]. rewrite (String.eqb_sym "class" name).
    now destruct (name =? "class"). }
  destruct Hs as [a [-> Ha]].
  destruct (nullish (text o)); simpl.
  - intros H. now destruct (el_attrs_loop name _ _ _ _ _ _ (Ha []) H).
  - destruct (to_string (text o)) as [s|e]; simpl; [|discriminate].
    intros H. now destruct (el_attrs_loop name _ _ _ _ _ _ (Ha _) H).
Qed.

(** ** Dot-paths and the fields of objects *)

Lemma split_segments (s : string) :
  Forall (fun k => has_dot k = false) (split "." s).
Proof.
  induction s as [|c r IH]; cbn [split].
  - now repeat constructor.
  - destruct (Ascii.eqb c ".") eqn:E.
    + constructor; [reflexivity | exact IH].
    + destruct (split "." r) as [|h t] eqn:Er;
        [now apply split_nonempty in Er|].
      inversion IH as [|? ? Hh Ht]; subst. constructor; [|exact Ht].
      unfold has_dot in *. cbn [list_ascii_of_string existsb].
      now rewrite Ascii.eqb_sym, E, Hh.
Qed.

Lemma split_join_keys (keys : list string) :
  keys <> [] ->
  Forall (fun k => has_dot k = false) keys ->
  split "." (join_keys keys) = keys.
Proof.
  intros Hne H. induction H as [|k ks Hk Hks IH]; [now destruct Hne|].
  destruct ks as [|k2 ks].
  - now apply split_no_sep.
  - change (join_keys (k :: k2 :: ks)) with (k ++ String "." (join_keys (k2 :: ks))).
    rewrite split_app, (split_no_sep k Hk), IH by discriminate. reflexivity.
Qed.

Lemma descend_dig (keys : list string) :
  forall object v, dig keys object = Some v -> reduce descend keys object = Ok v.
Proof.
  induction keys as [|k ks IH]; intros object v; simpl.
  - now intros [= <-].
  - destruct object; try discriminate.
    destruct (has_key k props); [|discriminate].
    intros H. simpl. now apply IH.
Qed.

(** X12.  [getPath] reads what the objects hold: when a value is stored
    under a chain of field names, none of which contains a dot, each
    object on the way holding a field of the name that is read in it,
    the dot-path made of these names resolves to that value. *)
Theorem getPath_reads_fields (keys : list string) (object v : value) :
  keys <> [] ->
  Forall (fun k => has_dot k = false) keys ->
  dig keys object = Some v ->
  getPath object (join_keys keys) = Ok v.
Proof.
  intros Hne Hk Hd. rewrite getPath_descend, (split_join_keys keys Hne Hk).
  now apply descend_dig.
Qed.

(** X13.  A field whose name contains a dot cannot be reached: two
    objects that agree on every field with a name without dots resolve
    every dot-path to the same value. *)
Theorem getPath_ignores_dotted_fields
        (props props' : list (string * value)) (dotPath : string) :
  (forall k, has_dot k = false -> lookup k props = lookup k props') ->
  getPath (VObj props) dotPath = getPath (VObj props') dotPath.
Proof.
  intros H. rewrite !getPath_descend.
  pose proof (split_segments dotPath) as Hs.
  destruct (split "." dotPath) as [|k ks] eqn:E;
    [now apply split_nonempty in E|].
  inversion Hs as [|? ? Hk _]; subst. simpl. now rewrite (H k Hk).
Qed.

(** ** The location of a resource *)

Lemma count_char_app (c : ascii) (s t : string) :
  count_char c (s ++ t) = count_char c s + count_char c t.
Proof.
  induction s as [|d r IH]; simpl; [reflexivity|].
  now rewrite IH, Nat.add_assoc.
Qed.

Lemma string_app_assoc (a b c : string) : (a ++ b) ++ c = a ++ (b ++ c).
Proof. induction a as [|d r IH]; simpl; [reflexivity | now rewrite IH]. Qed.

Lemma hex_digit_unreserved (k : nat) : unreserved (hex_digit k) = true.
Proof.
  do 16 (destruct k as [|k]; [reflexivity|]). now destruct k.
Qed.

Lemma differs_from_unreserved (c d : ascii) :
  unreserved c = false -> unreserved d = true -> Ascii.eqb c d = false.
Proof.
  intros Hc Hd. destruct (Ascii.eqb c d) eqn:E; [|reflexivity].
  apply Ascii.eqb_eq in E. congruence.
Qed.

Lemma count_percent (c : ascii) (byte : nat) :
  unreserved c = false -> Ascii.eqb c "%" = false ->
  count_char c (percent byte) = 0.
Proof.
  intros Hu Hp. unfold percent. cbn [count_char].
  rewrite Hp, !(differs_from_unreserved c _ Hu (hex_digit_unreserved _)).
  reflexivity.
Qed.

Lemma count_encoded (c : ascii) (s : string) :
  unreserved c = false -> Ascii.eqb c "%" = false ->
  count_char c (encodeURIComponent s) = 0.
Proof.
  intros Hu Hp. induction s as [|d r IH]; [reflexivity|].
  cbn [encodeURIComponent]. rewrite count_char_app, IH, Nat.add_0_r.
  destruct (unreserved d) eqn:Ed.
  - cbn [count_char]. now rewrite (differs_from_unreserved c d Hu Ed).
  - destruct (nat_of_ascii d <? 128)%nat.
    + now apply count_percent.
    + now rewrite count_char_app, !count_percent.
Qed.

(** X14.  The language code cannot add a separator to the location that
    is requested: none of the characters that [encodeURIComponent]
    escapes (a slash, a question mark, a hash, a space and so on) occurs
    in the encoded code, so the location has the slashes of the base
    path and one more, and it ends with [.json]. *)
Theorem location_separators (base lang : string) :
  (forall c, unreserved c = false -> Ascii.eqb c "%" = false ->
             count_char c (encodeURIComponent lang) = 0)
  /\ count_char "/" (location base lang) = count_char "/" base + 1
  /\ count_char "?" (location base lang) = count_char "?" base
  /\ count_char "#" (location base lang) = count_char "#" base
  /\ exists stem, location base lang = stem ++ ".json".
Proof.
  split; [intros c; apply count_encoded|].
  unfold location. rewrite !count_char_app.
  rewrite !count_encoded by reflexivity.
  repeat split; try (cbn; now rewrite ?Nat.add_0_r).
  exists (base ++ "/" ++ encodeURIComponent lang).
  now rewrite !string_app_assoc.
Qed.

Lemma decode_piece (c : ascii) (t : string) :
  decode ((let n := nat_of_ascii c in
           if unreserved c then String c ""
           else if (n <? 128)%nat then percent n
           else percent (192 + n / 64) ++ percent (128 + n mod 64)) ++ t)
  = option_map (String c) (decode t).
Proof. destruct c as [[] [] [] [] [] [] [] []]; reflexivity. Qed.

Lemma decode_encode (s : string) : decode (encodeURIComponent s) = Some s.
Proof.
  induction s as [|c r IH]; [reflexivity|].
  cbn [encodeURIComponent]. rewrite decode_piece, IH. reflexivity.
Qed.

Lemma string_app_cancel_l (a x y : string) : a ++ x = a ++ y -> x = y.
Proof.
  induction a as [|c r IH]; simpl; [trivial|]. intros [= H]. now apply IH.
Qed.

Lemma string_app_length (x t : string) :
  String.length (x ++ t) = String.length x + String.length t.
Proof. induction x as [|c r IH]; simpl; [reflexivity | now rewrite IH]. Qed.

Lemma string_app_cancel_r (t x y : string) : x ++ t = y ++ t -> x = y.
Proof.
  revert y. induction x as [|c r IH]; intros y H.
  - destruct y as [|d y']; [reflexivity|].
    apply (f_equal String.length) in H. simpl in H.
    rewrite string_app_length in H.
    exfalso. revert H. generalize (String.length t) (String.length y').
    intros n m H. induction n as [|n IHn]; [discriminate|].
    apply IHn. simpl in H. injection H as H. now rewrite <- plus_n_Sm in H.
  - destruct y as [|d y'].
    + apply (f_equal String.length) in H. simpl in H.
      rewrite string_app_length in H.
      exfalso. revert H. generalize (String.length t) (String.length r).
      intros n m H. induction n as [|n IHn]; [discriminate|].
      apply IHn. simpl in H. injection H as H. now rewrite <- plus_n_Sm in H.
    + simpl in H. injection H as -> H. f_equal. now apply IH.
Qed.

Lemma location_determines (base lang1 lang2 : string) :
  location base lang1 = location base lang2 -> lang1 = lang2.
Proof.
  unfold location. intros H.
  apply string_app_cancel_l in H. apply (string_app_cancel_l "/") in H.
  apply string_app_cancel_r in H.
  apply (f_equal decode) in H. rewrite !decode_encode in H.
  now injection H.
Qed.

(** X15.  Two language codes never share a resource: under one base
    path, language codes that differ are asked for at locations that
    differ. *)
Theorem location_injective (base lang1 lang2 : string) :
  lang1 <> lang2 -> location base lang1 <> location base lang2.
Proof. intros H E. apply H. now apply (location_determines base). Qed.

(** ** The resolved language *)

Lemma trimEnd_head (c : ascii) (r : string) :
  is_space c = false -> exists r', trimEnd (String c r) = String c r'.
Proof.
  intros H. simpl. destruct (trimEnd r); [rewrite H|]; eauto.
Qed.

Lemma trimEnd_idempotent (s : string) : trimEnd (trimEnd s) = trimEnd s.
Proof.
  induction s as [|c r IH]; simpl; [reflexivity|].
  destruct (trimEnd r) as [|d r'] eqn:E.
  - destruct (is_space c) eqn:Ec; simpl; [reflexivity | now rewrite Ec].
  - change (trimEnd (String c (String d r')) = String c (String d r')).
    cbn [trimEnd]. cbn [trimEnd] in IH. rewrite IH. reflexivity.
Qed.

Lemma trim_idempotent (s : string) : trim (trim s) = trim s.
Proof.
  unfold trim.
  assert (H : trimStart (trimEnd (trimStart s)) = trimEnd (trimStart s)).
  { induction s as [|c r IH]; simpl; [reflexivity|].
    destruct (is_space c) eqn:Ec; [exact IH|].
    destruct (trimEnd_head c r Ec) as [r' ->]. simpl. now rewrite Ec. }
  rewrite H. apply trimEnd_idempotent.
Qed.

(** X16.  The resolver never returns an empty language: its result is
    always truthy.  A language taken from the query is a string that is
    not blank and has no white space left at either end. *)
Theorem getLanguage_never_blank (search : search_params) (config v : value) :
  getLanguage search config = Ok v ->
  truthy v = true
  /\ (usable_lang search = true ->
      exists s, v = VStr s /\ all_space s = false /\ trim s = s).
Proof.
  unfold getLanguage, usable_lang.
  set (candidate := match search with
                    | Params entries =>
                        trim match params_get "lang" entries with
                             | Some x => x
                             | None => ""
                             end
                    | BadQuery => ""
                    end).
  destruct (candidate =? "") eqn:E; simpl.
  - destruct (config_field config "defaultLanguage") as [d|]; simpl;
      [|discriminate].
    intros [= <-]. split; [now destruct (truthy d) eqn:Ed|].
    intros Hu. exfalso. unfold candidate in E.
    destruct search as [|entries]; [discriminate|].
    destruct (params_get "lang" entries) as [x|]; [|discriminate].
    rewrite trim_eqb_all_space in E. now rewrite E in Hu.
  - intros [= <-]. simpl. rewrite E. split; [reflexivity|]. intros _.
    exists candidate. split; [reflexivity|].
    assert (Hc : trim candidate = candidate).
    { unfold candidate. destruct search; [reflexivity | apply trim_idempotent]. }
    split; [|exact Hc].
    rewrite <- trim_eqb_all_space, Hc. exact E.
Qed.

(** ** The rendered tree *)

Lemma replace_absent (pat rep s : string) :
  occurs pat s = false -> replace pat rep s = s.
Proof.
  induction s as [|c r IH]; simpl.
  - now destruct (drop_prefix pat "").
  - destruct (drop_prefix pat (String c r)); [discriminate|].
    intros H. now rewrite IH.
Qed.

Lemma drop_prefix_spec (p s r : string) :
  drop_prefix p s = Some r -> s = p ++ r.
Proof.
  revert s. induction p as [|a p IH]; intros s; simpl.
  - now intros [= <-].
  - destruct s as [|b s]; [discriminate|].
    destruct (Ascii.eqb a b) eqn:E; [|discriminate].
    apply Ascii.eqb_eq in E. subst b. intros H. now rewrite (IH _ H).
Qed.

Lemma drop_prefix_longer (p y z r : string) :
  drop_prefix p y = Some r -> drop_prefix p (y ++ z) = Some (r ++ z).
Proof.
  revert y. induction p as [|a p IH]; intros y; simpl.
  - now intros [= <-].
  - destruct y as [|b y]; [discriminate|]. simpl.
    destruct (Ascii.eqb a b); [apply IH | discriminate].
Qed.

Lemma drop_prefix_shorter (p y z r : string) :
  drop_prefix p (y ++ z) = Some r ->
  String.length p <= String.length y ->
  exists r', drop_prefix p y = Some r'.
Proof.
  revert y. induction p as [|a p IH]; intros y; simpl.
  - eauto.
  - destruct y as [|b y]; simpl; [lia|].
    destruct (Ascii.eqb a b); [|discriminate].
    intros H Hl. apply IH; [exact H | lia].
Qed.

Lemma year_tail (pre post : string) :
  pre ++ "{year}" ++ post = (pre ++ "{year") ++ ("}" ++ post).
Proof. now rewrite string_app_assoc. Qed.

Lemma replace_first_year (rep pre post : string) :
  occurs "{year}" (pre ++ "{year") = false ->
  replace "{year}" rep (pre ++ "{year}" ++ post) = pre ++ rep ++ post.
Proof.
  induction pre as [|c r IH]; [reflexivity|].
  change (String c r ++ "{year") with (String c (r ++ "{year")).
  change (String c r ++ "{year}" ++ post)
    with (String c (r ++ "{year}" ++ post)).
  change (String c r ++ rep ++ post) with (String c (r ++ rep ++ post)).
  intros H. cbn [occurs] in H. cbn [replace].
  destruct (drop_prefix "{year}" (String c (r ++ "{year"))) eqn:E;
    [discriminate|].
  destruct (drop_prefix "{year}" (String c (r ++ "{year}" ++ post))) eqn:E'.
  - exfalso. rewrite year_tail in E'.
    change (String c ((r ++ "{year") ++ "}" ++ post))
      with (String c (r ++ "{year") ++ ("}" ++ post)) in E'.
    apply drop_prefix_shorter in E'.
    + destruct E' as [r' E']. congruence.
    + simpl. rewrite string_app_length. simpl. lia.
  - f_equal. now apply IH.
Qed.

Lemma first_year_exists (s : string) :
  occurs "{year}" s = true ->
  exists pre post,
    s = pre ++ "{year}" ++ post /\ occurs "{year}" (pre ++ "{year") = false.
Proof.
  induction s as [|c r IH]; [discriminate|].
  intros H. cbn [occurs] in H.
  destruct (drop_prefix "{year}" (String c r)) as [rest|] eqn:E.
  - exists "", rest. split; [exact (drop_prefix_spec _ _ _ E) | reflexivity].
  - destruct (IH H) as [pre [post [-> Hfirst]]].
    exists (String c pre), post. split; [reflexivity|].
    change (String c pre ++ "{year") with (String c (pre ++ "{year")).
    cbn [occurs].
    destruct (drop_prefix "{year}" (String c (pre ++ "{year"))) as [r'|] eqn:E';
      [|exact Hfirst].
    exfalso.
    apply (drop_prefix_longer _ _ ("}" ++ post)) in E'.
    change (String c (pre ++ "{year") ++ "}" ++ post)
      with (String c ((pre ++ "{year") ++ ("}" ++ post))) in E'.
    rewrite <- year_tail in E'. congruence.
Qed.

(** X17.  The footer shows the copyright line as it is when it holds no
    [{year}], and with the current year in the place of the first
    [{year}] when it holds one, whatever stands before and after it (a
    second [{year}] stays); every copyright line is of one of these two
    kinds. *)
Theorem render_footer_placeholder
        (year : Z) (i18n : value) (pg : page) (root : mount) (copyright : string) :
  validateI18n i18n = Ok tt ->
  renderable i18n = true ->
  appRoot pg = Some root ->
  getPath i18n "footer.copyright" = Ok (VStr copyright) ->
  exists container,
    appRoot (fst (render year i18n pg))
    = Some {| contents := [container]; aria_busy := Some "false" |}
    /\ (occurs "{year}" copyright = false ->
        textContent (footer_of container) = copyright)
    /\ (forall pre post,
          copyright = pre ++ "{year}" ++ post ->
          occurs "{year}" (pre ++ "{year") = false ->
          textContent (footer_of container)
          = pre ++ number_to_string year ++ post)
    /\ (occurs "{year}" copyright = true ->
        exists pre post,
          copyright = pre ++ "{year}" ++ post
          /\ occurs "{year}" (pre ++ "{year") = false).
Proof.
  intros Hv Hr Hroot Hc.
  destruct (render_mounts year i18n pg root Hv Hr Hroot)
    as [entries [cards [ts [gs [hs [visit [c H]]]]]]].
  destruct H as [_ [_ [_ [_ [_ [Hc' [_ Hrender]]]]]]].
  rewrite Hc in Hc'. injection Hc' as <-.
  eexists. rewrite Hrender. cbn [fst appRoot].
  split; [reflexivity|]. rewrite footer_text. split; [|split].
  - apply replace_absent.
  - intros pre post -> Hpre. now apply replace_first_year.
  - apply first_year_exists.
Qed.

(** X18.  The tree [render] mounts, in full: a [div] of class
    [container] with a header (title and tagline), a section (heading
    and the grid of cards) and a footer, each element with the class and
    the text the script gives it, the cards being those of the entries
    in their order. *)
Theorem render_layout (year : Z) (i18n : value) (pg : page) (root : mount) :
  validateI18n i18n = Ok tt ->
  renderable i18n = true ->
  appRoot pg = Some root ->
  exists entries cards title tagline heading visit copyright,
    get_prop i18n "projects" = Ok (VArr entries)
    /\ text_at i18n "site.title" = Some title
    /\ text_at i18n "site.tagline" = Some tagline
    /\ text_at i18n "sections.projects" = Some heading
    /\ text_at i18n "labels.visit" = Some visit
    /\ getPath i18n "footer.copyright" = Ok (VStr copyright)
    /\ Forall2 (card_for visit) entries cards
    /\ appRoot (fst (render year i18n pg))
       = Some {| contents :=
                   [ Element "div" [("class", "container")]
                       [ Element "header" [("class", "site-header")]
                           [ text_view "h1" "title" title;
                             text_view "p" "tagline" tagline ];
                         Element "section" [("class", "projects")]
                           [ text_view "h2" "section-title" heading;
                             Element "div" [("class", "projects-grid")] cards ];
                         Element "footer" [("class", "site-footer")]
                           [ Element "div" []
                               (let line := replace "{year}"
                                              (number_to_string year) copyright in
                                if line =? "" then [] else [Text line]) ] ] ];
                 aria_busy := Some "false" |}.
Proof.
  intros Hv Hr Hroot.
  destruct (render_mounts year i18n pg root Hv Hr Hroot)
    as [entries [cards [ts [gs [hs [visit [c H]]]]]]].
  destruct H as [He [Ht [Hg [Hh [Hl [Hc [Hcards Hrender]]]]]]].
  exists entries, cards, ts, gs, hs, visit, c. rewrite Hrender.
  now repeat (split; [assumption|]).
Qed.

(** ** The loader and the network *)

(** X19.  Three errors of [loadI18n] tell what happened: the
    resource-unavailable error carries the location that was requested
    with caching disabled and the status of a response to it that was
    not a success; the malformed-resource error carries the text of the
    language, the response having been a success whose body did not
    parse; the error of a rejected request comes from a request made
    with caching disabled.  None of them is an error of the validator.
    Nothing is said of the other errors the loader may throw: a text
    with a lone surrogate, on which [encodeURIComponent] raises, is
    not among the strings of this development. *)
Theorem loadI18n_errors (config : value) (fetch : request -> fetch_outcome)
        (language : value) (e : error) :
  loadI18n config fetch language = Throw e ->
  (forall url code,
     e = ResourceUnavailable url code ->
     exists base lang r,
       url = location base lang /\ to_string language = Ok lang
       /\ fetch {| req_url := url; req_cache := "no-store" |} = Responded r
       /\ ok r = false /\ status r = code)
  /\ (forall lang,
        e = MalformedResource lang ->
        to_string language = Ok lang
        /\ exists base r,
             fetch {| req_url := location base lang; req_cache := "no-store" |}
             = Responded r
             /\ ok r = true /\ body r = None)
  /\ (e = NetworkError ->
      exists url, fetch {| req_url := url; req_cache := "no-store" |} = Rejected)
  /\ (forall path, e <> MissingKey path)
  /\ e <> InvalidShape
  /\ (forall index key, e <> MissingProjectField index key).
Proof.
  unfold loadI18n.
  destruct (basePath config) as [b|e0] eqn:Eb; simpl.
  - destruct (to_string b) as [base|e0] eqn:Ebase; simpl.
    + destruct (to_string language) as [lang|e0] eqn:El; simpl.
      * destruct (fetch _) as [|r] eqn:Ef.
        -- intros [= <-].
           split; [discriminate|]. split; [discriminate|].
           split; [eauto|]. now repeat split.
        -- destruct (ok r) eqn:Eok; simpl.
           ++ destruct (body r) eqn:Ebody; [discriminate|].
              intros [= <-].
              split; [discriminate|].
              split; [intros l [= <-]; split; [reflexivity | eauto]|].
              split; [discriminate|]. now repeat split.
           ++ intros [= <-].
              split; [intros url code [= <- <-]; exists base, lang, r;
                      now repeat split|].
              split; [discriminate|].
              split; [discriminate|]. now repeat split.
      * intros [= <-]. rewrite (only_to_string _ _ El).
        split; [discriminate|]. split; [discriminate|].
        split; [discriminate|]. now repeat split.
    + intros [= <-]. rewrite (only_to_string _ _ Ebase).
      split; [discriminate|]. split; [discriminate|].
      split; [discriminate|]. now repeat split.
  - intros [= <-]. revert Eb. unfold basePath.
    destruct (config_field_total config "i18nPath") as [p ->]. discriminate.
Qed.

Lemma loadI18n_request (config language : value) :
  exists req,
    req_cache req = "no-store"
    /\ (forall b base lang,
          basePath config = Ok b -> to_string b = Ok base ->
          to_string language = Ok lang -> req_url req = location base lang)
    /\ forall fetch fetch',
         fetch' req = fetch req ->
         loadI18n config fetch' language = loadI18n config fetch language.
Proof.
  unfold loadI18n.
  destruct (basePath config) as [b|e0] eqn:Eb; simpl.
  - destruct (to_string b) as [base|e0] eqn:Ebase; simpl.
    + destruct (to_string language) as [lang|e0] eqn:El; simpl.
      * exists {| req_url := location base lang; req_cache := "no-store" |}.
        split; [reflexivity|]. split.
        -- intros b' base' lang' [= <-] Hb [= <-]. simpl. congruence.
        -- now intros fetch fetch' ->.
      * exists {| req_url := ""; req_cache := "no-store" |}.
        split; [reflexivity|]. split; [discriminate | reflexivity].
    + exists {| req_url := ""; req_cache := "no-store" |}.
      split; [reflexivity|]. split; [|reflexivity].
      intros b' base lang [= <-] Hb. congruence.
  - exists {| req_url := ""; req_cache := "no-store" |}.
    split; [reflexivity|]. split; [discriminate | reflexivity].
Qed.

Lemma getLanguage_total (search : search_params) (config : value) :
  exists v, getLanguage search config = Ok v.
Proof.
  unfold getLanguage. destruct (negb (_ =? "")); [eauto|].
  destruct (config_field_total config "defaultLanguage") as [d ->].
  simpl. eauto.
Qed.

(** X20.  A run makes one request at most, with caching disabled, for
    the location of the language it resolved under the configured base
    path: whatever else the network would answer makes no difference to
    what the run does to the page. *)
Theorem bootstrap_single_request (w : world) :
  exists req,
    req_cache req = "no-store"
    /\ (forall language b base lang,
          getLanguage (search w) (config w) = Ok language ->
          basePath (config w) = Ok b -> to_string b = Ok base ->
          to_string language = Ok lang -> req_url req = location base lang)
    /\ forall fetch' pg,
         fetch' req = fetch w req ->
         bootstrap (with_fetch w fetch') pg = bootstrap w pg.
Proof.
  destruct (getLanguage_total (search w) (config w)) as [language Hl].
  destruct (loadI18n_request (config w) language) as [req [Hc [Hu Hsame]]].
  exists req. split; [exact Hc|]. split.
  - intros language' b base lang Hl'. rewrite Hl in Hl'. injection Hl' as <-.
    apply Hu.
  - intros fetch' pg Hf. unfold bootstrap, sequence, then_, lift.
    cbn [search config fetch year with_fetch]. rewrite Hl.
    now rewrite (Hsame (fetch w) fetch' Hf).
Qed.

(** ** The further statements at concrete inputs *)

Lemma render_only_TypeError_witness :
  snd (render 2025 numeric_doc shell) = Throw TypeError
  /\ appRoot (fst (render 2025 numeric_doc shell)) = appRoot shell
  /\ console (fst (render 2025 numeric_doc shell)) = console shell
  /\ text_at numeric_doc "site.title"
     = Some (title (fst (render 2025 numeric_doc shell))).
Proof.
  destruct (render_only_TypeError 2025 numeric_doc shell TypeError eq_refl)
    as [_ [Hroot [Hconsole _]]].
  split; [reflexivity|]. split; [exact Hroot|]. split; [exact Hconsole|].
  reflexivity.
Defined.

Lemma validateI18n_errors_witness :
  validateI18n blank_desc_doc = Throw (MissingProjectField 1 "description")
  /\ exists entries project,
       get_prop blank_desc_doc "projects" = Ok (VArr entries)
       /\ nth_error entries 1 = Some project
       /\ field_blank project "description" = true.
Proof.
  split; [reflexivity|].
  destruct (validateI18n_errors blank_desc_doc
              (MissingProjectField 1 "description") eq_refl)
    as [[path [_ [_ H]]]|[[H _]|[H|H]]]; try discriminate.
  destruct H as [entries [index [project [key [He [Hn [_ [Hb H]]]]]]]].
  injection H as <- <-. now exists entries, project.
Defined.

Lemma validateI18n_sound_witness :
  validateI18n orbit_doc = Ok tt
  /\ exists entries,
       get_prop orbit_doc "projects" = Ok (VArr entries)
       /\ List.length entries = 2.
Proof.
  split; [reflexivity|].
  destruct (validateI18n_sound orbit_doc eq_refl) as [_ [_ [entries [He _]]]].
  exists entries. split; [exact He|]. now injection He as <-.
Defined.

(** [?lang=%20fr], the French resource served: two cards, no error. *)
Lemma bootstrap_succeeds_witness :
  exists container,
    appRoot (bootstrap french_served shell)
    = Some {| contents := [container]; aria_busy := Some "false" |}
    /\ List.length (cards_of container) = 2
    /\ text_at orbit_doc "site.title"
       = Some (title (bootstrap french_served shell))
    /\ console (bootstrap french_served shell) = console shell.
Proof.
  exact (bootstrap_succeeds french_served shell
           {| contents := [Text "Loading"]; aria_busy := Some "true" |}
           (VStr "fr") orbit_doc _ eq_refl eq_refl eq_refl eq_refl eq_refl eq_refl).
Defined.

Lemma bootstrap_idempotent_witness :
  bootstrap french_served (bootstrap french_served shell)
  = bootstrap french_served shell
  /\ exists container,
       option_map contents (appRoot (bootstrap french_served shell))
       = Some [container].
Proof. exact (bootstrap_idempotent french_served shell eq_refl). Defined.

(** Markup in a text stays text. *)
Lemma el_text_witness :
  exists attributes s,
    Element "h3" [("class", "project-name")] [Text "<b>Orbit</b>"]
    = Element "h3" attributes (if s =? "" then [] else [Text s])
    /\ (if nullish (VStr "<b>Orbit</b>") then s = ""
        else to_string (VStr "<b>Orbit</b>") = Ok s)
    /\ textContent (Element "h3" [("class", "project-name")] [Text "<b>Orbit</b>"])
       = s.
Proof.
  exact (el_text "h3" (labelled "project-name" (VStr "<b>Orbit</b>"))
           (Element "h3" [("class", "project-name")] [Text "<b>Orbit</b>"])
           eq_refl).
Defined.

(** The [null] title is left out, a number is written as text. *)
Lemma el_attributes_witness :
  let o := {| className := Some "button-link"; text := VStr "Go";
              attrs := [ ("href", VStr "one"); ("title", VNull);
                         ("data-n", VNum 3) ] |} in
  let n := Element "a" [("class", "button-link"); ("href", "one"); ("data-n", "3")]
             [Text "Go"] in
  el "a" o = Ok n
  /\ attribute "href" n = Some "one"
  /\ attribute "title" n = None
  /\ attribute "data-n" n = Some "3"
  /\ attribute "class" n = Some "button-link".
Proof.
  intros o n.
  assert (Hd : NoDup (map fst (attrs o))).
  { repeat constructor; simpl; intuition discriminate. }
  split; [reflexivity|].
  split; [|split; [|split]].
  - exact (eq_trans (el_attributes "a" o n "href"
                       eq_refl eq_refl Hd eq_refl eq_refl) eq_refl).
  - exact (eq_trans (el_attributes "a" o n "title"
                       eq_refl eq_refl Hd eq_refl eq_refl) eq_refl).
  - exact (eq_trans (el_attributes "a" o n "data-n"
                       eq_refl eq_refl Hd eq_refl eq_refl) eq_refl).
  - exact (eq_trans (el_attributes "a" o n "class"
                       eq_refl eq_refl Hd eq_refl eq_refl) eq_refl).
Defined.

Lemma getPath_reads_fields_witness :
  getPath orbit_doc "site.title" = Ok (VStr "Capri")
  /\ getPath orbit_doc "footer.copyright" = Ok (VStr "(c) {year} Acme").
Proof.
  split.
  - refine (getPath_reads_fields ["site"; "title"] orbit_doc (VStr "Capri")
              _ _ eq_refl); [discriminate | repeat constructor].
  - refine (getPath_reads_fields ["footer"; "copyright"] orbit_doc
              (VStr "(c) {year} Acme") _ _ eq_refl);
      [discriminate | repeat constructor].
Defined.

(** The field named [a.b] is not what the path [a.b] reads. *)
Lemma getPath_ignores_dotted_fields_witness :
  getPath (VObj [("a.b", VNum 1); ("a", VObj [("b", VNum 2)])]) "a.b"
  = Ok (VNum 2).
Proof.
  refine (eq_trans
            (getPath_ignores_dotted_fields
               [("a.b", VNum 1); ("a", VObj [("b", VNum 2)])]
               [("a", VObj [("b", VNum 2)])] "a.b" _) eq_refl).
  intros k Hk. cbn [lookup].
  destruct ("a.b" =? k) eqn:E; [|reflexivity].
  apply String.eqb_eq in E. subst k. discriminate.
Defined.

(** A slash in the language code is not a slash in the location. *)
Lemma location_injective_witness :
  location "i18n" "a/b" = "i18n/a%2Fb.json"
  /\ location "i18n" "a/b" <> location "i18n" "a%2Fb".
Proof.
  split; [reflexivity|].
  apply (location_injective "i18n" "a/b" "a%2Fb"). discriminate.
Defined.

Lemma getLanguage_never_blank_witness :
  truthy (VStr "fr") = true
  /\ exists s, VStr "fr" = VStr s /\ all_space s = false /\ trim s = s.
Proof.
  destruct (getLanguage_never_blank (Params [("lang", " fr ")]) VUndefined
              (VStr "fr") eq_refl) as [Ht Hs].
  split; [exact Ht | exact (Hs eq_refl)].
Defined.

Lemma render_footer_placeholder_witness :
  exists container,
    appRoot (fst (render 2025 brace_doc shell))
    = Some {| contents := [container]; aria_busy := Some "false" |}
    /\ textContent (footer_of container) = "{c} 2025 to {year}".
Proof.
  destruct (render_footer_placeholder 2025 brace_doc shell
              {| contents := [Text "Loading"]; aria_busy := Some "true" |}
              "{c} {year} to {year}" eq_refl eq_refl eq_refl eq_refl)
    as [container [Hroot [_ [H _]]]].
  exists container. split; [exact Hroot|].
  exact (H "{c} " " to {year}" eq_refl eq_refl).
Defined.

Lemma render_layout_witness :
  exists entries cards,
    get_prop orbit_doc "projects" = Ok (VArr entries)
    /\ Forall2 (card_for "Visit") entries cards
    /\ option_map contents (appRoot (fst (render 2025 orbit_doc shell)))
       = Some [page_view "Capri" "Blue" "Projects" cards "(c) 2025 Acme"].
Proof.
  destruct (render_layout 2025 orbit_doc shell
              {| contents := [Text "Loading"]; aria_busy := Some "true" |}
              eq_refl eq_refl eq_refl)
    as [entries [cards [t [g [h [v [c H]]]]]]].
  destruct H as [He [Ht [Hg [Hh [Hv [Hc [Hcards Hroot]]]]]]].
  injection Ht as <-. injection Hg as <-. injection Hh as <-.
  injection Hv as <-. injection Hc as <-.
  exists entries, cards. split; [exact He|]. split; [exact Hcards|].
  rewrite Hroot. reflexivity.
Defined.

Lemma loadI18n_errors_witness :
  exists base lang r,
    "i18n/fr.json" = location base lang /\ to_string (VStr "fr") = Ok lang
    /\ fetch french_missing {| req_url := "i18n/fr.json"; req_cache := "no-store" |}
       = Responded r
    /\ ok r = false /\ status r = 404%Z.
Proof.
  exact (proj1 (loadI18n_errors VUndefined (fetch french_missing) (VStr "fr")
                  (ResourceUnavailable "i18n/fr.json" 404) eq_refl)
               "i18n/fr.json" 404%Z eq_refl).
Defined.
